(** * Kando menu editor: the top-level [Editor] coordinator

    A shallow embedding of [src/renderer/editor/editor.ts].  The editor is
    a reactive object: its public methods, the toolbar events it listens
    to and the replies of the host process are the inputs; the calls it
    makes on its opaque sub-panels, on the host bridge
    ([window.api.menuSettings]) and on its own event emitter are the
    outputs, kept in order in a log.

    Every method runs to completion.  [emit] is the last statement of
    [enterEditMode] and of [leaveEditMode], and [leaveEditMode] the last
    of [hide], so a listener that calls back into the editor acts like a
    later input.  The continuation of [Promise.all] runs in the microtask
    phase of the reply that fulfils it, before any other input.  The
    settings object and its menus live in a heap: the editor, the preview
    and the toolbar hold references to the same objects. *)

From stdpp Require Import base strings list gmap.
From Stdlib Require Import ZArith Lia.

Local Open Scope string_scope.
Local Open Scope list_scope.
Local Open Scope nat_scope.

(** ** [container.classList]

    A [DOMTokenList] is an ordered set of tokens: [add] appends a token
    that is not there yet, [remove] drops it, [contains] tests it. *)
Module DOMTokenList.

Definition contains (cl : list string) (t : string) : bool :=
  bool_decide (t ∈ cl).

Definition add (cl : list string) (t : string) : list string :=
  if contains cl t then cl else cl ++ [t].

Definition remove (cl : list string) (t : string) : list string :=
  filter (λ x, x ≠ t) cl.

End DOMTokenList.

(** The five sub-panels the constructor creates, in creation order. *)
Inductive Component :=
  | Background | Preview | Properties | Sidebar | Toolbar.

(** A child node of the container: either something that was there
    before the editor was built, or the container of a sub-panel
    ([panel.getContainer()]). *)
Inductive ChildNode :=
  | Existing (id : nat)
  | ContainerOf (c : Component).

Record HTMLElement := mkElement {
  classList : list string;
  childNodes : list ChildNode
}.

Definition appendChild (c : ChildNode) (e : HTMLElement) : HTMLElement :=
  {| classList := classList e; childNodes := childNodes e ++ [c] |}.

Definition mapClassList (f : list string → list string) (e : HTMLElement)
  : HTMLElement :=
  {| classList := f (classList e); childNodes := childNodes e |}.

(** References to objects of the renderer's heap. *)
Definition loc := positive.

(** The two host calls that return a promise. *)
Inductive HostCall := CallGet | CallGetCurrentMenu.

(** The state of a promise returned by a host call. *)
Inductive Outcome :=
  | Pending
  | FulfilledSettings (settings : loc)
  | FulfilledNumber (n : Z)
  | Rejected.

(** [settings.menus], the array held by the settings object [settings].
    The editor never reassigns the field, so the array is identified by
    the object that holds it. *)
Inductive ArrayRef := MenusOf (settings : loc).

(** JavaScript indexing [arr[i]] with a number: [undefined] unless [i] is
    a valid index. *)
Definition index {A} (arr : list A) (i : Z) : option A :=
  if (0 <=? i)%Z then arr !! Z.to_nat i else None.

Section Editor.

(** [toINode] and the node types are imported from [./editor-node],
    [IMenuSettings] from [../../common].  The development is parametric in
    the type of nodes, in the fields of a menu other than [nodes], and in
    [toINode]. *)
Context {Node Meta : Type}.
Variable toINode : Node → Node.

(** [IMenu]: the [nodes] field the editor rewrites, and the rest. *)
Record IMenu := mkMenu {
  nodes : Node;
  other : Meta
}.

(** [IMenuSettings]: the [menus] array, holding references to menu
    objects. *)
Record IMenuSettings := mkSettings {
  menus : list loc
}.

(** The part of the renderer heap that holds the settings graph.  The
    preview and the toolbar receive references into it and the user edits
    it in place through them. *)
Record Store := mkStore {
  nextLoc : loc;
  menuObjs : gmap loc IMenu;
  settingsObjs : gmap loc IMenuSettings
}.

Definition emptyStore : Store :=
  {| nextLoc := 1%positive; menuObjs := ∅; settingsObjs := ∅ |}.

Definition allocMenu (m : IMenu) (st : Store) : loc * Store :=
  (nextLoc st,
   {| nextLoc := Pos.succ (nextLoc st);
      menuObjs := <[nextLoc st := m]> (menuObjs st);
      settingsObjs := settingsObjs st |}).

Fixpoint allocMenus (ms : list IMenu) (st : Store) : list loc * Store :=
  match ms with
  | [] => ([], st)
  | m :: ms' =>
      let '(l, st1) := allocMenu m st in
      let '(ls, st2) := allocMenus ms' st1 in
      (l :: ls, st2)
  end.

(** A settings value arriving over IPC is deserialised into fresh
    objects. *)
Definition allocSettings (data : list IMenu) (st : Store) : loc * Store :=
  let '(ls, st1) := allocMenus data st in
  (nextLoc st1,
   {| nextLoc := Pos.succ (nextLoc st1);
      menuObjs := menuObjs st1;
      settingsObjs := <[nextLoc st1 := {| menus := ls |}]> (settingsObjs st1) |}).

(** [settings.menus] read through a reference. *)
Definition readMenus (st : Store) (settings : loc) : list loc :=
  match settingsObjs st !! settings with
  | Some o => menus o
  | None => []
  end.

(** The value that the structured clone of [settings] carries to the
    host. *)
Definition snapshot (st : Store) (settings : loc) : list IMenu :=
  omap (λ m, menuObjs st !! m) (readMenus st settings).

(** [menu.nodes = toINode(menu.nodes)] *)
Definition convertMenu (m : IMenu) : IMenu :=
  {| nodes := toINode (nodes m); other := other m |}.

Definition convertAt (st : Store) (menu : loc) : Store :=
  {| nextLoc := nextLoc st;
     menuObjs := alter convertMenu menu (menuObjs st);
     settingsObjs := settingsObjs st |}.

(** [settings.menus.forEach((menu) => { menu.nodes = toINode(menu.nodes) })] *)
Definition convertMenus (st : Store) (settings : loc) : Store :=
  foldl convertAt st (readMenus st settings).

(** Everything the editor does to the outside, in order. *)
Inductive Effect :=
  | NewTooltip (elem : nat) (showDelay hideDelay : nat)
  | SidebarSetVisibility (v : bool)
  | PreviewSetMenu (menu : option loc)
  | PreviewShow
  | PreviewHide
  | PropertiesShow
  | PropertiesHide
  | ToolbarSetMenus (arr : ArrayRef) (currentMenu : Z)
  | HostGet (promise : nat)
  | HostGetCurrentMenu (promise : nat)
  | HostSet (settings : option loc) (payload : list IMenu)
  | Emit (event : string).

(** The editor together with the part of its environment it interacts
    with: the heap, the promises of the host calls it made (a promise is
    named by its position in [promises]) and the [Promise.all(..).then(..)]
    continuations that still wait. *)
Record State := mkState {
  container : HTMLElement;
  menuSettings : option loc;
  heap : Store;
  promises : list (HostCall * Outcome);
  joins : list (nat * nat);
  log : list Effect
}.

Definition setContainer (c : HTMLElement) (s : State) : State :=
  {| container := c; menuSettings := menuSettings s; heap := heap s;
     promises := promises s; joins := joins s; log := log s |}.

Definition setMenuSettings (v : option loc) (s : State) : State :=
  {| container := container s; menuSettings := v; heap := heap s;
     promises := promises s; joins := joins s; log := log s |}.

Definition setHeap (h : Store) (s : State) : State :=
  {| container := container s; menuSettings := menuSettings s; heap := h;
     promises := promises s; joins := joins s; log := log s |}.

Definition setPromises (ps : list (HostCall * Outcome)) (s : State) : State :=
  {| container := container s; menuSettings := menuSettings s; heap := heap s;
     promises := ps; joins := joins s; log := log s |}.

Definition setJoins (js : list (nat * nat)) (s : State) : State :=
  {| container := container s; menuSettings := menuSettings s; heap := heap s;
     promises := promises s; joins := js; log := log s |}.

(** Append one effect to the log. *)
Definition perform (e : Effect) (s : State) : State :=
  {| container := container s; menuSettings := menuSettings s; heap := heap s;
     promises := promises s; joins := joins s; log := log s ++ [e] |}.

Definition classes (s : State) : list string := classList (container s).

(** ** The constructor *)

Definition panels : list Component :=
  [Background; Preview; Properties; Sidebar; Toolbar].

(** [constructor(container)]: each sub-panel is created and its container
    appended; then every element of the document that asks for a tooltip
    ([tooltipElems], the result of [document.querySelectorAll]) gets one. *)
Definition construct (c : HTMLElement) (tooltipElems : list nat) : State :=
  let c := appendChild (ContainerOf Background) c in
  let c := appendChild (ContainerOf Preview) c in
  let c := appendChild (ContainerOf Properties) c in
  let c := appendChild (ContainerOf Sidebar) c in
  let c := appendChild (ContainerOf Toolbar) c in
  {| container := c; menuSettings := None; heap := emptyStore;
     promises := []; joins := [];
     log := (λ e, NewTooltip e 500 0) <$> tooltipElems |}.

(** ** The public methods *)

Definition isInEditMode (s : State) : bool :=
  DOMTokenList.contains (classes s) "edit-mode".

(** The visibility state.  There is no method for it: the style sheet
    reads the class. *)
Definition isVisible (s : State) : bool :=
  DOMTokenList.contains (classes s) "visible".

Definition show (s : State) : State :=
  setContainer (mapClassList (λ cl, DOMTokenList.add cl "visible") (container s)) s.

(** A host call that returns a promise: the promise is new and pending. *)
Definition hostCall (c : HostCall) (s : State) : nat * State :=
  let p := length (promises s) in
  let s := setPromises (promises s ++ [(c, Pending)]) s in
  (p, perform (match c with
               | CallGet => HostGet p
               | CallGetCurrentMenu => HostGetCurrentMenu p
               end) s).

(** [Promise.all([pGet, pCur]).then(...)]: the continuation waits for
    both promises. *)
Definition promiseAllThen (pGet pCur : nat) (s : State) : State :=
  setJoins (joins s ++ [(pGet, pCur)]) s.

(** The continuation of [enterEditMode]:
    [([settings, currentMenu]) => { ... }]. *)
Definition onSettings (settings : loc) (currentMenu : Z) (s : State) : State :=
  let s := setMenuSettings (Some settings) s in
  let s := perform (PreviewSetMenu (index (readMenus (heap s) settings) currentMenu)) s in
  perform (ToolbarSetMenus (MenusOf settings) currentMenu) s.

Definition enterEditMode (s : State) : State :=
  if isInEditMode s then s else
  let s := setContainer
             (mapClassList (λ cl, DOMTokenList.add cl "edit-mode") (container s)) s in
  let s := perform (SidebarSetVisibility false) s in
  let '(pGet, s) := hostCall CallGet s in
  let '(pCur, s) := hostCall CallGetCurrentMenu s in
  let s := promiseAllThen pGet pCur s in
  perform (Emit "enter-edit-mode") s.

Definition leaveEditMode (s : State) : State :=
  if negb (isInEditMode s) then s else
  let s := setContainer
             (mapClassList (λ cl, DOMTokenList.remove cl "edit-mode") (container s)) s in
  let s :=
    match menuSettings s with
    | Some settings =>
        let s := setHeap (convertMenus (heap s) settings) s in
        let s := perform (HostSet (menuSettings s) (snapshot (heap s) settings)) s in
        setMenuSettings None s
    | None => s
    end in
  perform (Emit "leave-edit-mode") s.

Definition hide (s : State) : State :=
  let s := setContainer
             (mapClassList (λ cl, DOMTokenList.remove cl "visible") (container s)) s in
  leaveEditMode s.

(** ** Replies of the host *)

(** What the host answers to a call: a settings value, a number, or a
    failure. *)
Inductive Reply :=
  | ReplySettings (data : list IMenu)
  | ReplyNumber (n : Z)
  | ReplyError.

Definition setOutcome (p : nat) (c : HostCall) (o : Outcome) (s : State) : State :=
  setPromises (<[p := (c, o)]> (promises s)) s.

(** The reply to the call behind promise [p] settles it.  A promise
    settles once; a reply of the wrong shape for the call does not occur
    (the bridge is typed) and is dropped. *)
Definition settle (p : nat) (r : Reply) (s : State) : State :=
  match promises s !! p with
  | Some (c, Pending) =>
      match c, r with
      | CallGet, ReplySettings data =>
          let '(l, h) := allocSettings data (heap s) in
          setOutcome p c (FulfilledSettings l) (setHeap h s)
      | CallGetCurrentMenu, ReplyNumber n => setOutcome p c (FulfilledNumber n) s
      | _, ReplyError => setOutcome p c Rejected s
      | _, _ => s
      end
  | _ => s
  end.

Inductive JoinStatus :=
  | Waiting
  | Ready (settings : loc) (currentMenu : Z)
  | Failed.

(** [Promise.all]: rejected as soon as one promise is, fulfilled with
    both values once both are. *)
Definition joinStatus (ps : list (HostCall * Outcome)) (j : nat * nat) : JoinStatus :=
  match ps !! j.1, ps !! j.2 with
  | Some (_, Rejected), _ => Failed
  | _, Some (_, Rejected) => Failed
  | Some (_, FulfilledSettings l), Some (_, FulfilledNumber n) => Ready l n
  | _, _ => Waiting
  end.

Definition isWaiting (ps : list (HostCall * Outcome)) (j : nat * nat) : bool :=
  match joinStatus ps j with
  | Waiting => true
  | _ => false
  end.

Definition runJoin (s : State) (j : nat * nat) : State :=
  match joinStatus (promises s) j with
  | Ready l n => onSettings l n s
  | _ => s
  end.

(** The microtasks after a reply: every continuation whose
    [Promise.all] is now fulfilled runs, in registration order; a
    rejected one is dropped (there is no rejection handler). *)
Definition runJoins (s : State) : State :=
  let js := joins s in
  let s := setJoins (filter (λ j, isWaiting (promises s) j = true) js) s in
  foldl runJoin s js.

Definition hostReply (p : nat) (r : Reply) (s : State) : State :=
  runJoins (settle p r s).

(** ** Toolbar events *)

Inductive ToolbarEvent :=
  | TbEnterEditMode
  | TbLeaveEditMode
  | TbExpand
  | TbCollapse
  | TbSelectMenu (i : Z).

(** The listeners the constructor registers on the toolbar.  [None] is a
    thrown [TypeError]: ['select-menu'] reads [this.menuSettings.menus]
    without a null check. *)
Definition onToolbar (e : ToolbarEvent) (s : State) : option State :=
  match e with
  | TbEnterEditMode => Some (enterEditMode s)
  | TbLeaveEditMode => Some (leaveEditMode s)
  | TbExpand => Some (perform PropertiesHide (perform PreviewHide s))
  | TbCollapse => Some (perform PropertiesShow (perform PreviewShow s))
  | TbSelectMenu i =>
      match menuSettings s with
      | Some settings =>
          Some (perform (PreviewSetMenu (index (readMenus (heap s) settings) i)) s)
      | None => None
      end
  end.

(** ** Edits made through the sub-panels

    The preview, the properties view and the toolbar are opaque; what
    they can do to the settings graph they were handed is to overwrite a
    menu object, to change the elements of a [menus] array, and to create
    a menu object. *)
Inductive Edit :=
  | EditMenu (menu : loc) (m : IMenu)
  | EditMenus (settings : loc) (ms : list loc)
  | EditNewMenu (m : IMenu).

Definition applyEdit (e : Edit) (st : Store) : Store :=
  match e with
  | EditMenu menu m =>
      {| nextLoc := nextLoc st;
         menuObjs := alter (λ _, m) menu (menuObjs st);
         settingsObjs := settingsObjs st |}
  | EditMenus settings ms =>
      {| nextLoc := nextLoc st;
         menuObjs := menuObjs st;
         settingsObjs := alter (λ _, {| menus := ms |}) settings (settingsObjs st) |}
  | EditNewMenu m => (allocMenu m st).2
  end.

(** ** Runs of the editor *)

Inductive Op :=
  | CallShow
  | CallHide
  | CallEnterEditMode
  | CallLeaveEditMode
  | ToolbarEmits (e : ToolbarEvent)
  | HostReplies (p : nat) (r : Reply)
  | UserEdits (e : Edit).

Definition step (o : Op) (s : State) : option State :=
  match o with
  | CallShow => Some (show s)
  | CallHide => Some (hide s)
  | CallEnterEditMode => Some (enterEditMode s)
  | CallLeaveEditMode => Some (leaveEditMode s)
  | ToolbarEmits e => onToolbar e s
  | HostReplies p r => Some (hostReply p r s)
  | UserEdits e => Some (setHeap (applyEdit e (heap s)) s)
  end.

(** An exception thrown by a listener leaves the editor as it was. *)
Definition exec (o : Op) (s : State) : State :=
  default s (step o s).

Definition run (ops : list Op) (s : State) : State :=
  foldl (λ s o, exec o s) s ops.

(** The states an editor can be in: built by the constructor, then driven
    by any sequence of inputs. *)
Inductive reachable : State → Prop :=
  | reachable_construct c tooltipElems : reachable (construct c tooltipElems)
  | reachable_exec o s : reachable s → reachable (exec o s).

(** ** Counting in the log *)

Definition isEmit (event : string) (e : Effect) : bool :=
  match e with
  | Emit ev => bool_decide (ev = event)
  | _ => false
  end.

Definition isHostSet (e : Effect) : bool :=
  match e with
  | HostSet _ _ => true
  | _ => false
  end.

Definition isHostCall (e : Effect) : bool :=
  match e with
  | HostGet _ | HostGetCurrentMenu _ | HostSet _ _ => true
  | _ => false
  end.

Definition countIn (f : Effect → bool) (l : list Effect) : nat :=
  length (filter (λ e, f e = true) l).

(** A predicate on effects that does not hold of the two calls the
    continuation makes. *)
Definition skipsPanelCalls (f : Effect → bool) : Prop :=
  (∀ m, f (PreviewSetMenu m) = false) ∧ (∀ a c, f (ToolbarSetMenus a c) = false).

(** The effects of a [leaveEditMode()] that does leave. *)
Definition leaveEffects (s : State) : list Effect :=
  match menuSettings s with
  | Some settings =>
      [HostSet (Some settings) (snapshot (convertMenus (heap s) settings) settings)]
  | None => []
  end ++ [Emit "leave-edit-mode"].

(** ** Invariants of the reachable states *)

(** Every registered continuation waits for two promises that exist and
    is still waiting. *)
Definition joinsWait (s : State) : Prop :=
  Forall (λ j, j.1 < length (promises s) ∧ j.2 < length (promises s) ∧
               isWaiting (promises s) j = true) (joins s).

(** Every promise stems from a host call that is in the log, and is
    fulfilled, if at all, with a value of the call's kind. *)
Definition promisesIssued (s : State) : Prop :=
  ∀ p c o, promises s !! p = Some (c, o) →
    match c with
    | CallGet => HostGet p ∈ log s ∧ ∀ n, o ≠ FulfilledNumber n
    | CallGetCurrentMenu =>
        HostGetCurrentMenu p ∈ log s ∧ ∀ l, o ≠ FulfilledSettings l
    end.

(** The stored settings are an object the host delivered in reply to a
    [get()] call of the editor. *)
Definition settingsFromHost (s : State) : Prop :=
  ∀ l, menuSettings s = Some l →
    ∃ p, promises s !! p = Some (CallGet, FulfilledSettings l) ∧
         HostGet p ∈ log s.

(** Continuations wait for pairs of promises that do not overlap: a
    pair is an even position and the next one. *)
Definition joinsApart (s : State) : Prop :=
  NoDup (joins s) ∧
  Forall (λ j, j.2 = S j.1 ∧ Nat.even j.1 = true) (joins s).

(** The continuation on the promises [a] and [b] is registered, and the
    promises are in the states [oa] and [ob]. *)
Definition awaits (s : State) (a b : nat) (oa ob : Outcome) : Prop :=
  (a, b) ∈ joins s ∧
  promises s !! a = Some (CallGet, oa) ∧
  promises s !! b = Some (CallGetCurrentMenu, ob).

(** An input that is not a reply to the call behind promise [a] or
    [b]. *)
Definition quiet (a b : nat) (o : Op) : Prop :=
  match o with
  | HostReplies p _ => p ≠ a ∧ p ≠ b
  | _ => True
  end.

(** How often the menu object [menu] is listed in a [menus] array. *)
Definition timesListed (menu : loc) (ms : list loc) : nat :=
  length (filter (λ x, x = menu) ms).

(** Objects live below the allocation pointer. *)
Definition storeBelow (st : Store) : Prop :=
  (∀ l, is_Some (menuObjs st !! l) → (l < nextLoc st)%positive) ∧
  (∀ l, is_Some (settingsObjs st !! l) → (l < nextLoc st)%positive).

(** C4 as the specification states it: the constructor appends the
    containers of [n] sub-panels to the given container. *)
Definition appendsPanels (n : nat) (c : HTMLElement) (s : State) : Prop :=
  ∃ ps : list Component,
    length ps = n ∧ childNodes (container s) = childNodes c ++ (ContainerOf <$> ps).


(** A [set] call with [null] for the settings. *)
Definition isNullSet (e : Effect) : bool :=
  match e with
  | HostSet None _ => true
  | _ => false
  end.

(** A predicate on effects that holds of [set] calls only. *)
Definition onlySets (f : Effect → bool) : Prop :=
  ∀ e, isHostSet e = false → f e = false.

(** C8 as the specification states it, at a state [s]: after [hide()] the
    editor is out of edit mode, whatever settings it held have been sent
    to the host, and the container has neither class. *)
Definition hideFlushes (s : State) : Prop :=
  isInEditMode (hide s) = false ∧
  (∀ settings, menuSettings s = Some settings →
               ∃ payload, HostSet (Some settings) payload ∈ log (hide s)) ∧
  isVisible (hide s) = false.

(** How often the editor has emitted [event]. *)
Definition emitted (event : string) (s : State) : nat :=
  countIn (isEmit event) (log s).

Definition b2n (b : bool) : nat := if b then 1 else 0.

(** ** The two-state machine of the edit-mode flag

    What an input does to a boolean flag, whatever else the state holds. *)
Definition flagAfter (o : Op) (b : bool) : bool :=
  match o with
  | CallEnterEditMode | ToolbarEmits TbEnterEditMode => true
  | CallLeaveEditMode | CallHide | ToolbarEmits TbLeaveEditMode => false
  | _ => b
  end.

(** The number of times the flag goes from false to true, and from true
    to false, along a run. *)
Fixpoint risingEdges (ops : list Op) (s : State) : nat :=
  match ops with
  | [] => 0
  | o :: ops' =>
      b2n (negb (isInEditMode s) && isInEditMode (exec o s))
      + risingEdges ops' (exec o s)
  end.

Fixpoint fallingEdges (ops : list Op) (s : State) : nat :=
  match ops with
  | [] => 0
  | o :: ops' =>
      b2n (isInEditMode s && negb (isInEditMode (exec o s)))
      + fallingEdges ops' (exec o s)
  end.

(** ** Further vocabulary for the log and the classes *)

Definition isNewTooltip (e : Effect) : bool :=
  match e with
  | NewTooltip _ _ _ => true
  | _ => false
  end.

Definition isSidebarCall (v : bool) (e : Effect) : bool :=
  match e with
  | SidebarSetVisibility v' => bool_decide (v' = v)
  | _ => false
  end.

Definition isPreviewHide (e : Effect) : bool :=
  match e with PreviewHide => true | _ => false end.

Definition isPropertiesHide (e : Effect) : bool :=
  match e with PropertiesHide => true | _ => false end.

Definition isPreviewShow (e : Effect) : bool :=
  match e with PreviewShow => true | _ => false end.

Definition isPropertiesShow (e : Effect) : bool :=
  match e with PropertiesShow => true | _ => false end.

(** What an input other than a reply of the host adds to the log.  (A
    reply adds the calls of the continuations it completes.) *)
Definition directEffects (o : Op) (s : State) : list Effect :=
  match o with
  | CallEnterEditMode | ToolbarEmits TbEnterEditMode =>
      if isInEditMode s then []
      else [SidebarSetVisibility false; HostGet (length (promises s));
            HostGetCurrentMenu (S (length (promises s)));
            Emit "enter-edit-mode"]
  | CallLeaveEditMode | CallHide | ToolbarEmits TbLeaveEditMode =>
      if isInEditMode s then leaveEffects s else []
  | ToolbarEmits TbExpand => [PreviewHide; PropertiesHide]
  | ToolbarEmits TbCollapse => [PreviewShow; PropertiesShow]
  | ToolbarEmits (TbSelectMenu i) =>
      match menuSettings s with
      | Some settings => [PreviewSetMenu (index (readMenus (heap s) settings) i)]
      | None => []
      end
  | _ => []
  end.

(** What an input does to the visibility, whatever else the state
    holds. *)
Definition visibleAfter (o : Op) (b : bool) : bool :=
  match o with
  | CallShow => true
  | CallHide => false
  | _ => b
  end.

(** The two orders in which the host can answer the calls behind the
    promises [a] and [b], with nothing in between. *)
Definition answered (a b : nat) (data : list IMenu) (cur : Z) (s s2 : State) : Prop :=
  s2 = hostReply b (ReplyNumber cur) (hostReply a (ReplySettings data) s) ∨
  s2 = hostReply a (ReplySettings data) (hostReply b (ReplyNumber cur) s).

(** ** What decides the behaviour *)

(** Whether settings are stored. *)
Definition stored (s : State) : bool :=
  match menuSettings s with
  | Some _ => true
  | None => false
  end.

(** The kind of an effect: which method of which collaborator is called,
    whatever the arguments. *)
Definition kindOf (e : Effect) : nat :=
  match e with
  | NewTooltip _ _ _ => 0
  | SidebarSetVisibility _ => 1
  | PreviewSetMenu _ => 2
  | PreviewShow => 3
  | PreviewHide => 4
  | PropertiesShow => 5
  | PropertiesHide => 6
  | ToolbarSetMenus _ _ => 7
  | HostGet _ => 8
  | HostGetCurrentMenu _ => 9
  | HostSet _ _ => 10
  | Emit _ => 11
  end.

(** What the input [o] adds to the log in state [s]. *)
Definition newEffects (o : Op) (s : State) : list Effect :=
  drop (length (log s)) (log (exec o s)).

(** C3 as the specification states it, for two states: if the flag is
    the only protocol state, two states with the same flag answer every
    input alike (the same listener throws or does not, and the same calls
    are made). *)
Definition flagDecides (s s' : State) : Prop :=
  isInEditMode s = isInEditMode s' →
  ∀ o, (step o s = None ↔ step o s' = None) ∧
       kindOf <$> newEffects o s = kindOf <$> newEffects o s'.

(** An input that is not a reply to the call behind promise [p]. *)
Definition noReplyTo (p : nat) (o : Op) : Prop :=
  match o with
  | HostReplies q _ => q ≠ p
  | _ => True
  end.

End Editor.

(** ** A concrete editor

    Nodes are a number and a flag telling whether the node carries
    editor-only data; [toINode] drops that data. *)
Module Sample.

Definition SNode : Type := nat * bool.

Definition stripNode (n : SNode) : SNode := (n.1, false).

Definition bare : HTMLElement := {| classList := []; childNodes := [] |}.

Definition fresh : @State SNode unit := construct bare [].

Definition twoMenus : list (@IMenu SNode unit) :=
  [mkMenu (1, true) (); mkMenu (2, true) ()].

(** Shown, in edit mode, both replies in. *)
Definition editing : @State SNode unit :=
  run stripNode
    [CallShow; CallEnterEditMode;
     HostReplies 0 (ReplySettings twoMenus); HostReplies 1 (ReplyNumber 0)]
    fresh.

(** Edit mode entered and left again before the host answered. *)
Definition lateReply : @State SNode unit :=
  run stripNode
    [CallEnterEditMode; CallLeaveEditMode;
     HostReplies 0 (ReplySettings twoMenus); HostReplies 1 (ReplyNumber 0)]
    fresh.

End Sample.

(** ** More concrete editors *)
Module Sample2.
Import Sample.

(** Shown, outside edit mode. *)
Definition shown : @State SNode unit := show fresh.

(** After the round trip: edit mode entered, both replies in, left. *)
Definition saved : @State SNode unit := leaveEditMode stripNode editing.

(** A container that carries ['edit-mode'] before the editor is built. *)
Definition premarked : HTMLElement :=
  {| classList := ["edit-mode"]; childNodes := [] |}.

End Sample2.

(** ** An editor waiting for the host *)
Module Sample3.
Import Sample.

(** Shown, in edit mode, no reply yet. *)
Definition entered : @State SNode unit :=
  run stripNode [CallShow; CallEnterEditMode] fresh.

End Sample3.

(** * Properties *)

(** ** Class lists *)
Module TokenFacts.
Import DOMTokenList.

Lemma contains_true cl t : contains cl t = true ↔ t ∈ cl.
Proof. unfold contains. apply bool_decide_eq_true. Qed.

Lemma contains_false cl t : contains cl t = false ↔ t ∉ cl.
Proof. unfold contains. apply bool_decide_eq_false. Qed.

Lemma elem_of_add cl t u : u ∈ add cl t ↔ u = t ∨ u ∈ cl.
Proof.
  unfold add. destruct (contains cl t) eqn:E.
  - apply contains_true in E. split; [auto | intros [-> | ?]; auto].
  - rewrite elem_of_app, list_elem_of_singleton. tauto.
Qed.

Lemma elem_of_remove cl t u : u ∈ remove cl t ↔ u ≠ t ∧ u ∈ cl.
Proof. unfold remove. by rewrite list_elem_of_filter. Qed.

Lemma contains_add cl t : contains (add cl t) t = true.
Proof. apply contains_true. rewrite elem_of_add. auto. Qed.

Lemma contains_remove cl t : contains (remove cl t) t = false.
Proof. apply contains_false. rewrite elem_of_remove. tauto. Qed.

Lemma contains_ext cl cl' u :
  (u ∈ cl ↔ u ∈ cl') → contains cl u = contains cl' u.
Proof. intros H. unfold contains. apply bool_decide_ext, H. Qed.

Lemma contains_add_ne cl t u : u ≠ t → contains (add cl t) u = contains cl u.
Proof. intros H. apply contains_ext. rewrite elem_of_add. tauto. Qed.

Lemma contains_remove_ne cl t u : u ≠ t → contains (remove cl t) u = contains cl u.
Proof. intros H. apply contains_ext. rewrite elem_of_remove. tauto. Qed.

Lemma add_present cl t : contains cl t = true → add cl t = cl.
Proof. intros H. unfold add. by rewrite H. Qed.

Lemma remove_absent cl t : contains cl t = false → remove cl t = cl.
Proof.
  intros H%contains_false. unfold remove.
  induction cl as [|x cl IH]; [done|].
  rewrite filter_cons. destruct (decide (x ≠ t)) as [_|Hx].
  - f_equal. apply IH. set_solver.
  - exfalso. apply H. apply dec_stable in Hx. subst. set_solver.
Qed.

Lemma add_add cl t : add (add cl t) t = add cl t.
Proof. apply add_present, contains_add. Qed.

Lemma remove_remove cl t : remove (remove cl t) t = remove cl t.
Proof. apply remove_absent, contains_remove. Qed.

End TokenFacts.

Section EditorFacts.

Context {Node Meta : Type}.
Variable toINode : Node → Node.

Implicit Types (s : @State Node Meta) (o : @Op Node Meta).
Implicit Types (f : @Effect Node Meta → bool).

(** ** The class list under the methods *)

Lemma setContainer_same s : setContainer (container s) s = s.
Proof. by destruct s. Qed.

Lemma mapClassList_same (g : list string → list string) (c : HTMLElement) :
  g (classList c) = classList c → mapClassList g c = c.
Proof. intros H. destruct c. unfold mapClassList. simpl in *. by rewrite H. Qed.

Lemma classes_show s : classes (show s) = DOMTokenList.add (classes s) "visible".
Proof. reflexivity. Qed.

Lemma classes_enterEditMode s :
  classes (enterEditMode s) = DOMTokenList.add (classes s) "edit-mode".
Proof.
  unfold enterEditMode. destruct (isInEditMode s) eqn:E.
  - symmetry. by apply TokenFacts.add_present.
  - reflexivity.
Qed.

Lemma classes_leaveEditMode s :
  classes (leaveEditMode toINode s) = DOMTokenList.remove (classes s) "edit-mode".
Proof.
  unfold leaveEditMode. destruct (isInEditMode s) eqn:E; simpl.
  - by destruct (menuSettings s).
  - symmetry. by apply TokenFacts.remove_absent.
Qed.

Lemma classes_hide s :
  classes (hide toINode s) =
  DOMTokenList.remove (DOMTokenList.remove (classes s) "visible") "edit-mode".
Proof. unfold hide. by rewrite classes_leaveEditMode. Qed.

Lemma enterEditMode_noop s : isInEditMode s = true → enterEditMode s = s.
Proof. intros H. unfold enterEditMode. by rewrite H. Qed.

Lemma leaveEditMode_noop s : isInEditMode s = false → leaveEditMode toINode s = s.
Proof. intros H. unfold leaveEditMode. by rewrite H. Qed.

Lemma isInEditMode_enterEditMode s : isInEditMode (enterEditMode s) = true.
Proof.
  unfold isInEditMode. rewrite classes_enterEditMode.
  apply TokenFacts.contains_add.
Qed.

Lemma isInEditMode_leaveEditMode s : isInEditMode (leaveEditMode toINode s) = false.
Proof.
  unfold isInEditMode. rewrite classes_leaveEditMode.
  apply TokenFacts.contains_remove.
Qed.

Lemma isInEditMode_hide s : isInEditMode (hide toINode s) = false.
Proof. apply isInEditMode_leaveEditMode. Qed.

Lemma isVisible_hide s : isVisible (hide toINode s) = false.
Proof.
  unfold isVisible. rewrite classes_hide.
  rewrite TokenFacts.contains_remove_ne by done.
  apply TokenFacts.contains_remove.
Qed.

Lemma show_show s : show (show s) = show s.
Proof.
  unfold show at 1. rewrite mapClassList_same; [apply setContainer_same|].
  apply TokenFacts.add_add.
Qed.

Lemma hide_hide s : hide toINode (hide toINode s) = hide toINode s.
Proof.
  unfold hide at 1. rewrite mapClassList_same.
  - rewrite setContainer_same. apply leaveEditMode_noop, isInEditMode_hide.
  - apply TokenFacts.remove_absent. apply isVisible_hide.
Qed.

(** C5.  [show()] puts ['visible'] on the container and [hide()] takes it
    off; a second [show()] or a second [hide()] changes nothing at all,
    and [hide()] after [show()] gives a hidden editor. *)
Theorem visibility_toggle s :
  isVisible (show s) = true ∧
  classes (show s) = DOMTokenList.add (classes s) "visible" ∧
  isVisible (hide toINode s) = false ∧
  (∀ t, t ≠ "edit-mode" →
        DOMTokenList.contains (classes (hide toINode s)) t =
        DOMTokenList.contains (DOMTokenList.remove (classes s) "visible") t) ∧
  show (show s) = show s ∧
  hide toINode (hide toINode s) = hide toINode s ∧
  isVisible (hide toINode (show s)) = false.
Proof.
  repeat split.
  - apply TokenFacts.contains_add.
  - apply isVisible_hide.
  - intros t Ht. rewrite classes_hide. by apply TokenFacts.contains_remove_ne.
  - apply show_show.
  - apply hide_hide.
  - apply isVisible_hide.
Qed.

(** ** What each method adds to the log *)

Lemma countIn_app f (l l' : list Effect) :
  countIn f (l ++ l') = countIn f l + countIn f l'.
Proof. unfold countIn. by rewrite filter_app, length_app. Qed.

Lemma countIn_single f (e : Effect) : countIn f [e] = b2n (f e).
Proof.
  unfold countIn. rewrite filter_cons, filter_nil.
  destruct (f e); by case_decide.
Qed.

Lemma countIn_nil f : countIn f ([] : list Effect) = 0.
Proof. reflexivity. Qed.

Lemma countIn_cons f (e : Effect) (l : list Effect) :
  countIn f (e :: l) = b2n (f e) + countIn f l.
Proof.
  change (e :: l) with ([e] ++ l). by rewrite countIn_app, countIn_single.
Qed.

Lemma log_enterEditMode s :
  isInEditMode s = false →
  log (enterEditMode s) =
  log s ++ [SidebarSetVisibility false; HostGet (length (promises s));
            HostGetCurrentMenu (S (length (promises s)));
            Emit "enter-edit-mode"].
Proof.
  intros H. unfold enterEditMode. rewrite H. simpl.
  rewrite length_app. simpl. rewrite Nat.add_1_r.
  by rewrite <- !app_assoc.
Qed.

Lemma log_leaveEditMode s :
  isInEditMode s = true →
  log (leaveEditMode toINode s) = log s ++ leaveEffects toINode s.
Proof.
  intros H. unfold leaveEditMode, leaveEffects. rewrite H. simpl.
  destruct (menuSettings s) eqn:E; simpl.
  - by rewrite <- app_assoc.
  - done.
Qed.

Lemma menuSettings_leaveEditMode s :
  isInEditMode s = true → menuSettings (leaveEditMode toINode s) = None.
Proof.
  intros H. unfold leaveEditMode. rewrite H. simpl.
  by destruct (menuSettings s) eqn:E.
Qed.

Lemma heap_leaveEditMode s :
  isInEditMode s = true →
  heap (leaveEditMode toINode s) =
  match menuSettings s with
  | Some settings => convertMenus toINode (heap s) settings
  | None => heap s
  end.
Proof.
  intros H. unfold leaveEditMode. rewrite H. simpl.
  by destruct (menuSettings s).
Qed.

(** ** Replies leave the container alone and only talk to the panels *)

Lemma container_runJoin s j : container (runJoin s j) = container s.
Proof. unfold runJoin. by destruct (joinStatus _ _). Qed.

Lemma container_foldl_runJoin js s : container (foldl runJoin s js) = container s.
Proof.
  revert s. induction js as [|j js IH]; intros s; simpl; [done|].
  by rewrite IH, container_runJoin.
Qed.

Lemma container_settle p r s : container (settle p r s) = container s.
Proof.
  unfold settle. destruct (promises s !! p) as [[c []]|]; try done.
  destruct c, r; try done. simpl. by destruct (allocSettings _ _).
Qed.

Lemma container_hostReply p r s : container (hostReply p r s) = container s.
Proof.
  unfold hostReply, runJoins. rewrite container_foldl_runJoin. simpl.
  apply container_settle.
Qed.

Lemma log_settle p r s : log (settle p r s) = log s.
Proof.
  unfold settle. destruct (promises s !! p) as [[c []]|]; try done.
  destruct c, r; try done. simpl. by destruct (allocSettings _ _).
Qed.

Lemma countIn_runJoin f s j :
  skipsPanelCalls f → countIn f (log (runJoin s j)) = countIn f (log s).
Proof.
  intros [H1 H2]. unfold runJoin. destruct (joinStatus _ _); try done.
  simpl. rewrite !countIn_app, !countIn_single, H1, H2. simpl. lia.
Qed.

Lemma countIn_foldl_runJoin f js s :
  skipsPanelCalls f → countIn f (log (foldl runJoin s js)) = countIn f (log s).
Proof.
  intros Hf. revert s. induction js as [|j js IH]; intros s; simpl; [done|].
  by rewrite IH, countIn_runJoin.
Qed.

Lemma countIn_hostReply f p r s :
  skipsPanelCalls f → countIn f (log (hostReply p r s)) = countIn f (log s).
Proof.
  intros Hf. unfold hostReply, runJoins.
  rewrite countIn_foldl_runJoin by done. simpl. by rewrite log_settle.
Qed.

Lemma skips_isEmit ev : skipsPanelCalls (@isEmit Node Meta ev).
Proof. by split. Qed.

(** ** The edit-mode flag under every input *)

Lemma classes_exec_other o s t :
  t ≠ "edit-mode" → t ≠ "visible" →
  DOMTokenList.contains (classes (exec toINode o s)) t
  = DOMTokenList.contains (classes s) t.
Proof.
  intros He Hv. destruct o as [| | | |ev|p r|ed]; unfold exec; simpl.
  - rewrite classes_show. by apply TokenFacts.contains_add_ne.
  - rewrite classes_hide. by rewrite !TokenFacts.contains_remove_ne.
  - rewrite classes_enterEditMode. by apply TokenFacts.contains_add_ne.
  - rewrite classes_leaveEditMode. by apply TokenFacts.contains_remove_ne.
  - destruct ev; simpl; try done.
    + rewrite classes_enterEditMode. by apply TokenFacts.contains_add_ne.
    + rewrite classes_leaveEditMode. by apply TokenFacts.contains_remove_ne.
    + by destruct (menuSettings s).
  - unfold classes. by rewrite container_hostReply.
  - done.
Qed.

Lemma isInEditMode_exec o s :
  isInEditMode (exec toINode o s) = flagAfter o (isInEditMode s).
Proof.
  destruct o as [| | | |ev|p r|ed]; unfold exec; simpl.
  - unfold isInEditMode. rewrite classes_show.
    by apply TokenFacts.contains_add_ne.
  - apply isInEditMode_hide.
  - apply isInEditMode_enterEditMode.
  - apply isInEditMode_leaveEditMode.
  - destruct ev; simpl; try done.
    + apply isInEditMode_enterEditMode.
    + apply isInEditMode_leaveEditMode.
    + by destruct (menuSettings s).
  - unfold isInEditMode, classes. by rewrite container_hostReply.
  - done.
Qed.

(** ** Events and transitions *)

Lemma countIn_enterEditMode f s :
  countIn f (log (enterEditMode s)) =
  countIn f (log s) +
  (if isInEditMode s then 0
   else countIn f [SidebarSetVisibility false; HostGet (length (promises s));
                   HostGetCurrentMenu (S (length (promises s)));
                   Emit "enter-edit-mode"]).
Proof.
  destruct (isInEditMode s) eqn:E.
  - rewrite enterEditMode_noop by done. lia.
  - by rewrite log_enterEditMode, countIn_app.
Qed.

Lemma countIn_leaveEditMode f s :
  countIn f (log (leaveEditMode toINode s)) =
  countIn f (log s) +
  (if isInEditMode s then countIn f (leaveEffects toINode s) else 0).
Proof.
  destruct (isInEditMode s) eqn:E.
  - by rewrite log_leaveEditMode, countIn_app.
  - rewrite leaveEditMode_noop by done. lia.
Qed.

Lemma countIn_hide f s :
  countIn f (log (hide toINode s)) =
  countIn f (log s) +
  (if isInEditMode s then countIn f (leaveEffects toINode s) else 0).
Proof.
  unfold hide. rewrite countIn_leaveEditMode. simpl.
  replace (isInEditMode (setContainer _ s)) with (isInEditMode s); [done|].
  unfold isInEditMode, classes. simpl.
  by rewrite TokenFacts.contains_remove_ne.
Qed.

Lemma emitted_leaveEffects ev s :
  countIn (isEmit ev) (leaveEffects toINode s)
  = b2n (bool_decide ("leave-edit-mode" = ev)).
Proof.
  unfold leaveEffects. rewrite countIn_app, countIn_single.
  destruct (menuSettings s); [rewrite countIn_single | rewrite countIn_nil]; done.
Qed.

Lemma emitted_exec o s :
  emitted "enter-edit-mode" (exec toINode o s)
  = emitted "enter-edit-mode" s
    + b2n (negb (isInEditMode s) && isInEditMode (exec toINode o s)) ∧
  emitted "leave-edit-mode" (exec toINode o s)
  = emitted "leave-edit-mode" s
    + b2n (isInEditMode s && negb (isInEditMode (exec toINode o s))).
Proof.
  rewrite isInEditMode_exec. unfold emitted.
  assert (Henter : ∀ s',
    countIn (isEmit "enter-edit-mode") (log (enterEditMode s'))
    = countIn (isEmit "enter-edit-mode") (log s') + b2n (negb (isInEditMode s') && true) ∧
    countIn (isEmit "leave-edit-mode") (log (enterEditMode s'))
    = countIn (isEmit "leave-edit-mode") (log s') + b2n (isInEditMode s' && negb true)).
  { intros s'. rewrite !countIn_enterEditMode.
    destruct (isInEditMode s'); simpl; split; reflexivity. }
  assert (Hleave : ∀ s',
    countIn (isEmit "enter-edit-mode") (log (leaveEditMode toINode s'))
    = countIn (isEmit "enter-edit-mode") (log s') + b2n (negb (isInEditMode s') && false) ∧
    countIn (isEmit "leave-edit-mode") (log (leaveEditMode toINode s'))
    = countIn (isEmit "leave-edit-mode") (log s') + b2n (isInEditMode s' && negb false)).
  { intros s'. rewrite !countIn_leaveEditMode, !emitted_leaveEffects.
    destruct (isInEditMode s'); simpl; split; reflexivity. }
  destruct o as [| | | |ev|p r|ed]; unfold exec; simpl.
  - destruct (isInEditMode s); simpl; split; lia.
  - rewrite !countIn_hide, !emitted_leaveEffects.
    destruct (isInEditMode s); simpl; split; reflexivity.
  - apply Henter.
  - apply Hleave.
  - destruct ev; simpl.
    + apply Henter.
    + apply Hleave.
    + rewrite !countIn_app, !countIn_single.
      destruct (isInEditMode s); simpl; split; lia.
    + rewrite !countIn_app, !countIn_single.
      destruct (isInEditMode s); simpl; split; lia.
    + destruct (menuSettings s); simpl;
        rewrite ?countIn_app, ?countIn_single;
        destruct (isInEditMode s); simpl; split; lia.
  - rewrite !countIn_hostReply by apply skips_isEmit.
    destruct (isInEditMode s); simpl; split; lia.
  - destruct (isInEditMode s); simpl; split; lia.
Qed.

Lemma emitted_run ops s :
  emitted "enter-edit-mode" (run toINode ops s)
  = emitted "enter-edit-mode" s + risingEdges toINode ops s ∧
  emitted "leave-edit-mode" (run toINode ops s)
  = emitted "leave-edit-mode" s + fallingEdges toINode ops s.
Proof.
  revert s. induction ops as [|o ops IH]; intros s; simpl.
  - split; lia.
  - destruct (IH (exec toINode o s)) as [-> ->].
    destruct (emitted_exec o s) as [-> ->]. split; lia.
Qed.

(** C7.  [enterEditMode()] in edit mode and [leaveEditMode()] outside of
    it return the state as it was: classes, stored settings, promises and
    the log of calls and events are all unchanged.  Under every input
    ['enter-edit-mode'] is emitted once if the flag goes from false to
    true and not at all otherwise, ['leave-edit-mode'] once if it goes
    from true to false and not at all otherwise; so along any run the
    number of events is the number of transitions. *)
Theorem guards_and_events s :
  (isInEditMode s = true → enterEditMode s = s) ∧
  (isInEditMode s = false → leaveEditMode toINode s = s) ∧
  (∀ o,
     emitted "enter-edit-mode" (exec toINode o s)
     = emitted "enter-edit-mode" s
       + b2n (negb (isInEditMode s) && isInEditMode (exec toINode o s)) ∧
     emitted "leave-edit-mode" (exec toINode o s)
     = emitted "leave-edit-mode" s
       + b2n (isInEditMode s && negb (isInEditMode (exec toINode o s)))) ∧
  (∀ ops,
     emitted "enter-edit-mode" (run toINode ops s)
     = emitted "enter-edit-mode" s + risingEdges toINode ops s ∧
     emitted "leave-edit-mode" (run toINode ops s)
     = emitted "leave-edit-mode" s + fallingEdges toINode ops s).
Proof.
  split; [apply enterEditMode_noop|].
  split; [apply leaveEditMode_noop|].
  split; [intros o; apply emitted_exec|].
  intros ops. apply emitted_run.
Qed.


(** ** What the methods leave alone *)

Lemma promises_leaveEditMode s : promises (leaveEditMode toINode s) = promises s.
Proof.
  unfold leaveEditMode. destruct (isInEditMode s); simpl; [|done].
  by destruct (menuSettings s).
Qed.

Lemma joins_leaveEditMode s : joins (leaveEditMode toINode s) = joins s.
Proof.
  unfold leaveEditMode. destruct (isInEditMode s); simpl; [|done].
  by destruct (menuSettings s).
Qed.

Lemma promises_enterEditMode s :
  promises (enterEditMode s) =
  if isInEditMode s then promises s
  else promises s ++ [(CallGet, Pending); (CallGetCurrentMenu, Pending)].
Proof.
  unfold enterEditMode. destruct (isInEditMode s); simpl; [done|].
  by rewrite <- app_assoc.
Qed.

Lemma joins_enterEditMode s :
  joins (enterEditMode s) =
  if isInEditMode s then joins s
  else joins s ++ [(length (promises s), S (length (promises s)))].
Proof.
  unfold enterEditMode. destruct (isInEditMode s); simpl; [done|].
  by rewrite length_app, Nat.add_1_r.
Qed.

Lemma menuSettings_enterEditMode s : menuSettings (enterEditMode s) = menuSettings s.
Proof. unfold enterEditMode. by destruct (isInEditMode s). Qed.

Lemma heap_enterEditMode s : heap (enterEditMode s) = heap s.
Proof. unfold enterEditMode. by destruct (isInEditMode s). Qed.

Lemma promises_runJoin s j : promises (runJoin s j) = promises s.
Proof. unfold runJoin. by destruct (joinStatus _ _). Qed.

Lemma joins_runJoin s j : joins (runJoin s j) = joins s.
Proof. unfold runJoin. by destruct (joinStatus _ _). Qed.

Lemma heap_runJoin s j : heap (runJoin s j) = heap s.
Proof. unfold runJoin. by destruct (joinStatus _ _). Qed.

Lemma promises_foldl_runJoin js s : promises (foldl runJoin s js) = promises s.
Proof.
  revert s. induction js as [|j js IH]; intros s; simpl; [done|].
  by rewrite IH, promises_runJoin.
Qed.

Lemma joins_foldl_runJoin js s : joins (foldl runJoin s js) = joins s.
Proof.
  revert s. induction js as [|j js IH]; intros s; simpl; [done|].
  by rewrite IH, joins_runJoin.
Qed.

Lemma heap_foldl_runJoin js s : heap (foldl runJoin s js) = heap s.
Proof.
  revert s. induction js as [|j js IH]; intros s; simpl; [done|].
  by rewrite IH, heap_runJoin.
Qed.

Lemma promises_hostReply p r s : promises (hostReply p r s) = promises (settle p r s).
Proof. unfold hostReply, runJoins. by rewrite promises_foldl_runJoin. Qed.

Lemma heap_hostReply p r s : heap (hostReply p r s) = heap (settle p r s).
Proof. unfold hostReply, runJoins. by rewrite heap_foldl_runJoin. Qed.

Lemma joins_settle p r s : joins (settle p r s) = joins s.
Proof.
  unfold settle. destruct (promises s !! p) as [[c []]|]; try done.
  destruct c, r; try done. simpl. by destruct (allocSettings _ _).
Qed.

Lemma menuSettings_settle p r s : menuSettings (settle p r s) = menuSettings s.
Proof.
  unfold settle. destruct (promises s !! p) as [[c []]|]; try done.
  destruct c, r; try done. simpl. by destruct (allocSettings _ _).
Qed.

Lemma joins_hostReply p r s :
  joins (hostReply p r s)
  = filter (λ j, isWaiting (promises (settle p r s)) j = true) (joins s).
Proof.
  unfold hostReply, runJoins. rewrite joins_foldl_runJoin. simpl.
  by rewrite joins_settle.
Qed.

(** A reply changes the outcome of at most the promise it answers. *)
Lemma length_promises_settle p r s :
  length (promises (settle p r s)) = length (promises s).
Proof.
  unfold settle. destruct (promises s !! p) as [[c []]|]; try done.
  destruct c, r; try done; simpl; try destruct (allocSettings _ _); simpl;
    by rewrite length_insert.
Qed.

Lemma promises_settle_ne p r s q :
  q ≠ p → promises (settle p r s) !! q = promises s !! q.
Proof.
  intros Hq. unfold settle. destruct (promises s !! p) as [[c []]|]; try done.
  destruct c, r; try done; simpl; try destruct (allocSettings _ _); simpl;
    by rewrite list_lookup_insert_ne.
Qed.


(** ** Waiting continuations *)

Lemma joinStatus_ext (ps ps' : list (HostCall * Outcome)) j :
  ps !! j.1 = ps' !! j.1 → ps !! j.2 = ps' !! j.2 →
  joinStatus ps j = joinStatus ps' j.
Proof. intros H1 H2. unfold joinStatus. by rewrite H1, H2. Qed.

Lemma isWaiting_ext (ps ps' : list (HostCall * Outcome)) j :
  ps !! j.1 = ps' !! j.1 → ps !! j.2 = ps' !! j.2 →
  isWaiting ps j = isWaiting ps' j.
Proof. intros H1 H2. unfold isWaiting. by rewrite (joinStatus_ext ps ps'). Qed.

Lemma runJoin_waiting s j : isWaiting (promises s) j = true → runJoin s j = s.
Proof.
  unfold isWaiting, runJoin. by destruct (joinStatus (promises s) j).
Qed.

Lemma foldl_runJoin_waiting js s :
  Forall (λ j, isWaiting (promises s) j = true) js → foldl runJoin s js = s.
Proof.
  induction 1 as [|j js Hj _ IH]; simpl; [done|].
  by rewrite runJoin_waiting.
Qed.

Lemma filter_all {A} (P : A → Prop) `{∀ x, Decision (P x)} (l : list A) :
  Forall P l → filter P l = l.
Proof.
  induction 1 as [|x l Hx _ IH]; [done|].
  by rewrite filter_cons_True, IH.
Qed.

Lemma setJoins_same s : setJoins (joins s) s = s.
Proof. by destruct s. Qed.

(** With one continuation ready and the others waiting, exactly that
    one runs. *)
Lemma runJoins_one_ready s js1 j js2 l n :
  joins s = js1 ++ j :: js2 →
  Forall (λ j, isWaiting (promises s) j = true) js1 →
  Forall (λ j, isWaiting (promises s) j = true) js2 →
  joinStatus (promises s) j = Ready l n →
  runJoins s = onSettings l n (setJoins (js1 ++ js2) s).
Proof.
  intros Hjs Hw1 Hw2 Hr. unfold runJoins.
  rewrite Hjs, filter_app, filter_cons_False.
  2:{ unfold isWaiting. by rewrite Hr. }
  rewrite !filter_all by done.
  rewrite foldl_app. simpl. rewrite (foldl_runJoin_waiting js1) by done.
  unfold runJoin at 2. simpl. rewrite Hr.
  by apply foldl_runJoin_waiting.
Qed.

Lemma joinsWait_construct c tooltipElems :
  joinsWait (@construct Node Meta c tooltipElems).
Proof. apply Forall_nil_2. Qed.

Lemma joinsWait_frame s s' :
  promises s' = promises s → joins s' = joins s → joinsWait s → joinsWait s'.
Proof. unfold joinsWait. by intros -> ->. Qed.

Lemma joinsWait_enterEditMode s : joinsWait s → joinsWait (enterEditMode s).
Proof.
  intros H. unfold joinsWait.
  rewrite promises_enterEditMode, joins_enterEditMode.
  destruct (isInEditMode s); [done|].
  apply Forall_app. split.
  - eapply Forall_impl; [exact H|]. intros [a b] (Ha & Hb & Hw). simpl in *.
    rewrite length_app. repeat split; [lia..|].
    rewrite <- Hw. apply isWaiting_ext; simpl; by rewrite lookup_app_l.
  - apply Forall_singleton. simpl. rewrite length_app. simpl.
    repeat split; [lia..|].
    unfold isWaiting, joinStatus. simpl.
    rewrite lookup_app_r by lia. rewrite Nat.sub_diag. simpl.
    rewrite lookup_app_r by lia.
    replace (S (length (promises s)) - length (promises s)) with 1 by lia.
    done.
Qed.

Lemma joinsWait_hostReply p r s : joinsWait s → joinsWait (hostReply p r s).
Proof.
  intros H. unfold joinsWait.
  rewrite joins_hostReply, promises_hostReply, length_promises_settle.
  apply Forall_forall. intros j [Hw Hj]%list_elem_of_filter.
  unfold joinsWait in H. rewrite Forall_forall in H.
  destruct (H j Hj) as (Ha & Hb & _). done.
Qed.

Lemma joinsWait_exec o s : joinsWait s → joinsWait (exec toINode o s).
Proof.
  intros H. destruct o as [| | | |ev|p r|ed]; unfold exec; simpl.
  - done.
  - eapply joinsWait_frame; [| |exact H]; unfold hide.
    + by rewrite promises_leaveEditMode.
    + by rewrite joins_leaveEditMode.
  - by apply joinsWait_enterEditMode.
  - eapply joinsWait_frame; [| |exact H].
    + by rewrite promises_leaveEditMode.
    + by rewrite joins_leaveEditMode.
  - destruct ev; simpl; try done.
    + by apply joinsWait_enterEditMode.
    + eapply joinsWait_frame; [| |exact H].
      * by rewrite promises_leaveEditMode.
      * by rewrite joins_leaveEditMode.
    + by destruct (menuSettings s).
  - by apply joinsWait_hostReply.
  - done.
Qed.

Lemma reachable_joinsWait s : reachable toINode s → joinsWait s.
Proof.
  induction 1 as [c t|o s _ IH].
  - apply joinsWait_construct.
  - by apply joinsWait_exec.
Qed.


(** ** Allocation of a settings value *)

Lemma allocMenus_spec (ms : list (@IMenu Node Meta)) st ls st' :
  allocMenus ms st = (ls, st') →
  settingsObjs st' = settingsObjs st ∧
  (nextLoc st ≤ nextLoc st')%positive ∧
  (∀ k, (k < nextLoc st)%positive → menuObjs st' !! k = menuObjs st !! k) ∧
  (∀ k, is_Some (menuObjs st' !! k) →
        is_Some (menuObjs st !! k) ∨ (k < nextLoc st')%positive) ∧
  Forall (λ l, (nextLoc st ≤ l < nextLoc st')%positive) ls ∧
  NoDup ls ∧
  Forall2 (λ l m, menuObjs st' !! l = Some m) ls ms.
Proof.
  revert st ls st'. induction ms as [|m ms IH]; intros st ls st' H; simpl in H.
  - injection H as <- <-. repeat split; try done; try lia.
    + intros k Hk. by left.
    + constructor.
  - destruct (allocMenus ms _) as [ls1 st2] eqn:E. injection H as <- <-.
    apply IH in E as (Hs & Hn & Hold & Hdom & Hrange & Hnd & Hall).
    simpl in *. repeat split.
    + done.
    + lia.
    + intros k Hk. rewrite Hold by lia. apply lookup_insert_ne. lia.
    + intros k Hk. apply Hdom in Hk as [Hk|Hk]; [|by right].
      destruct (decide (k = nextLoc st)) as [->|Hne].
      * right. lia.
      * left. by rewrite lookup_insert_ne in Hk.
    + constructor; [lia|]. eapply Forall_impl; [exact Hrange|].
      simpl. intros l Hl. lia.
    + constructor; [|done]. intros Hin.
      rewrite Forall_forall in Hrange. apply Hrange in Hin. lia.
    + constructor; [|done]. rewrite Hold by lia. apply lookup_insert_eq.
Qed.

Lemma omap_lookup_Forall2 (objs : gmap loc (@IMenu Node Meta)) ls ms :
  Forall2 (λ l m, objs !! l = Some m) ls ms → omap (λ l, objs !! l) ls = ms.
Proof.
  induction 1 as [|l m ls ms H _ IH]; simpl; [done|].
  rewrite H. simpl. f_equal. exact IH.
Qed.

(** The object built from a settings value holds that value, in distinct
    menu objects, at an address nothing lived at. *)
Lemma allocSettings_spec (data : list (@IMenu Node Meta)) st l st' :
  allocSettings data st = (l, st') →
  snapshot st' l = data ∧
  NoDup (readMenus st' l) ∧
  Forall2 (λ menu m, menuObjs st' !! menu = Some m) (readMenus st' l) data ∧
  (storeBelow st → settingsObjs st !! l = None ∧ storeBelow st').
Proof.
  unfold allocSettings. destruct (allocMenus data st) as [ls st1] eqn:E.
  intros H. injection H as <- <-.
  apply allocMenus_spec in E as (Hs & Hn & Hold & Hdom & Hrange & Hnd & Hall).
  unfold snapshot, readMenus. simpl. rewrite lookup_insert_eq. simpl.
  split; [by apply omap_lookup_Forall2|].
  split; [done|]. split; [done|].
  intros [Hm Hst]. split.
  - rewrite <- Hs. destruct (settingsObjs st1 !! nextLoc st1) eqn:E1; [|done].
    rewrite Hs in E1. assert (nextLoc st1 < nextLoc st)%positive; [|lia].
    apply Hst. by eexists.
  - split; simpl.
    + intros k Hk. apply Hdom in Hk as [Hk|Hk]; [apply Hm in Hk|]; lia.
    + intros k Hk. destruct (decide (k = nextLoc st1)) as [->|Hne]; [lia|].
      rewrite lookup_insert_ne in Hk by done. rewrite Hs in Hk.
      apply Hst in Hk. lia.
Qed.


(** ** The fetch half of the round trip *)

Lemma lookup_new_1 {A} (ps : list A) x y : (ps ++ [x; y]) !! length ps = Some x.
Proof. rewrite lookup_app_r by lia. by rewrite Nat.sub_diag. Qed.

Lemma lookup_new_2 {A} (ps : list A) x y : (ps ++ [x; y]) !! S (length ps) = Some y.
Proof.
  rewrite lookup_app_r by lia.
  by replace (S (length ps) - length ps) with 1 by lia.
Qed.

Lemma Forall2_lookup_bind (objs : gmap loc (@IMenu Node Meta)) ls ms i :
  Forall2 (λ l m, objs !! l = Some m) ls ms →
  ls !! i ≫= (λ l, objs !! l) = ms !! i.
Proof.
  intros H. revert i. induction H as [|l m ls ms H _ IH]; intros [|i]; simpl; auto.
Qed.

Lemma index_bind (objs : gmap loc (@IMenu Node Meta)) ls ms i :
  Forall2 (λ l m, objs !! l = Some m) ls ms →
  index ls i ≫= (λ l, objs !! l) = index ms i.
Proof.
  intros H. unfold index. destruct (0 <=? i)%Z; [|done].
  by apply Forall2_lookup_bind.
Qed.

(** ** The heap of a reachable state *)

Lemma is_Some_alter {V} (g : V → V) (m : gmap loc V) i j :
  is_Some (alter g i m !! j) ↔ is_Some (m !! j).
Proof.
  destruct (decide (i = j)) as [->|Hne].
  - rewrite lookup_alter_eq. by rewrite fmap_is_Some.
  - by rewrite lookup_alter_ne.
Qed.

Lemma storeBelow_convertAt (st : @Store Node Meta) m :
  storeBelow st → storeBelow (convertAt toINode st m).
Proof.
  intros [H1 H2]. split; simpl; [|done].
  intros l Hl. apply H1. by apply is_Some_alter in Hl.
Qed.

Lemma storeBelow_foldl_convertAt ms (st : @Store Node Meta) :
  storeBelow st → storeBelow (foldl (convertAt toINode) st ms).
Proof.
  revert st. induction ms as [|m ms IH]; intros st H; simpl; [done|].
  by apply IH, storeBelow_convertAt.
Qed.

Lemma storeBelow_allocMenu (m : @IMenu Node Meta) st :
  storeBelow st → storeBelow (allocMenu m st).2.
Proof.
  intros [H1 H2]. split; simpl.
  - intros l Hl. destruct (decide (l = nextLoc st)) as [->|Hne]; [lia|].
    rewrite lookup_insert_ne in Hl by done. apply H1 in Hl. lia.
  - intros l Hl. apply H2 in Hl. lia.
Qed.

Lemma storeBelow_applyEdit (ed : @Edit Node Meta) st :
  storeBelow st → storeBelow (applyEdit ed st).
Proof.
  intros H. destruct ed as [menu m|settings ms|m]; simpl.
  - destruct H as [H1 H2]. split; simpl; [|done].
    intros l Hl. apply H1. by apply is_Some_alter in Hl.
  - destruct H as [H1 H2]. split; simpl; [done|].
    intros l Hl. apply H2. by apply is_Some_alter in Hl.
  - by apply storeBelow_allocMenu.
Qed.

Lemma storeBelow_leaveEditMode s :
  storeBelow (heap s) → storeBelow (heap (leaveEditMode toINode s)).
Proof.
  intros H. unfold leaveEditMode. destruct (isInEditMode s); simpl; [|done].
  destruct (menuSettings s); simpl; [|done].
  by apply storeBelow_foldl_convertAt.
Qed.

Lemma storeBelow_settle p r s :
  storeBelow (heap s) → storeBelow (heap (settle p r s)).
Proof.
  intros H. unfold settle. destruct (promises s !! p) as [[c []]|]; try done.
  destruct c, r; try done. destruct (allocSettings _ _) as [l h] eqn:E. simpl.
  by apply allocSettings_spec in E as (_ & _ & _ & Hb); apply Hb.
Qed.

Lemma storeBelow_exec o s :
  storeBelow (heap s) → storeBelow (heap (exec toINode o s)).
Proof.
  intros H. destruct o as [| | | |ev|p r|ed]; unfold exec; simpl.
  - done.
  - unfold hide. by apply storeBelow_leaveEditMode.
  - by rewrite heap_enterEditMode.
  - by apply storeBelow_leaveEditMode.
  - destruct ev; simpl; try done.
    + by rewrite heap_enterEditMode.
    + by apply storeBelow_leaveEditMode.
    + by destruct (menuSettings s).
  - rewrite heap_hostReply. by apply storeBelow_settle.
  - by apply storeBelow_applyEdit.
Qed.

Lemma reachable_storeBelow s : reachable toINode s → storeBelow (heap s).
Proof.
  induction 1 as [c t|o s _ IH].
  - split; simpl; intros l [x Hx]; by rewrite lookup_empty in Hx.
  - by apply storeBelow_exec.
Qed.

(** ** The log only grows *)

Lemma log_prefix_enterEditMode s : log s `prefix_of` log (enterEditMode s).
Proof.
  destruct (isInEditMode s) eqn:E.
  - by rewrite enterEditMode_noop.
  - rewrite log_enterEditMode by done. by eexists.
Qed.

Lemma log_prefix_leaveEditMode s : log s `prefix_of` log (leaveEditMode toINode s).
Proof.
  destruct (isInEditMode s) eqn:E.
  - rewrite log_leaveEditMode by done. by eexists.
  - by rewrite leaveEditMode_noop.
Qed.

Lemma log_prefix_runJoin s j : log s `prefix_of` log (runJoin s j).
Proof.
  unfold runJoin. destruct (joinStatus _ _); try done.
  simpl. rewrite <- app_assoc. by eexists.
Qed.

Lemma log_prefix_foldl_runJoin js s : log s `prefix_of` log (foldl runJoin s js).
Proof.
  revert s. induction js as [|j js IH]; intros s; simpl; [done|].
  etrans; [apply log_prefix_runJoin|apply IH].
Qed.

Lemma log_prefix_hostReply p r s : log s `prefix_of` log (hostReply p r s).
Proof.
  unfold hostReply, runJoins.
  etrans; [|apply log_prefix_foldl_runJoin]. simpl. by rewrite log_settle.
Qed.

Lemma log_prefix_exec o s : log s `prefix_of` log (exec toINode o s).
Proof.
  destruct o as [| | | |ev|p r|ed]; unfold exec; simpl.
  - done.
  - unfold hide. etrans; [|apply log_prefix_leaveEditMode]. done.
  - apply log_prefix_enterEditMode.
  - apply log_prefix_leaveEditMode.
  - destruct ev; simpl.
    + apply log_prefix_enterEditMode.
    + apply log_prefix_leaveEditMode.
    + rewrite <- app_assoc. by eexists.
    + rewrite <- app_assoc. by eexists.
    + destruct (menuSettings s); simpl; [by eexists|done].
  - apply log_prefix_hostReply.
  - done.
Qed.

(** ** Where promises and stored settings come from *)

Lemma promisesIssued_mono s s' :
  promises s' = promises s → log s `prefix_of` log s' →
  promisesIssued s → promisesIssued s'.
Proof.
  intros Hp Hl H p c o Hpo. rewrite Hp in Hpo. specialize (H p c o Hpo).
  destruct c; destruct H as [H1 H2]; split; try done;
    by eapply elem_of_prefix.
Qed.

Lemma promisesIssued_enterEditMode s :
  promisesIssued s → promisesIssued (enterEditMode s).
Proof.
  intros H. destruct (isInEditMode s) eqn:E.
  { by rewrite enterEditMode_noop. }
  intros p c o. rewrite promises_enterEditMode, E, log_enterEditMode by done.
  intros Hp. destruct (decide (p < length (promises s))) as [Hlt|Hge].
  - rewrite lookup_app_l in Hp by done. specialize (H p c o Hp).
    destruct c; destruct H as [H1 H2]; split; try done; set_solver.
  - apply lookup_app_Some in Hp as [Hp|[_ Hp]].
    { apply lookup_lt_Some in Hp. lia. }
    destruct (p - length (promises s)) as [|[|k]] eqn:Ek; simpl in Hp;
      [| |done].
    + injection Hp as <- <-. replace p with (length (promises s)) by lia.
      split; [set_solver|done].
    + injection Hp as <- <-. replace p with (S (length (promises s))) by lia.
      split; [set_solver|done].
Qed.

Lemma promisesIssued_settle p r s : promisesIssued s → promisesIssued (settle p r s).
Proof.
  intros H q c o Hq. rewrite log_settle.
  destruct (decide (q = p)) as [->|Hne].
  2:{ rewrite promises_settle_ne in Hq by done. by apply H. }
  revert Hq. unfold settle.
  destruct (promises s !! p) as [[c0 o0]|] eqn:E; [|by rewrite E].
  pose proof (H p c0 o0 E) as H0.
  assert (Hins : ∀ s' (out : Outcome), promises s' = promises s →
            promises (setOutcome p c0 out s') !! p = Some (c, o) →
            c = c0 ∧ o = out).
  { intros s' out Hs'. simpl. rewrite Hs', list_lookup_insert_eq.
    - by intros [= <- <-].
    - by apply lookup_lt_Some in E. }
  destruct o0; try (rewrite E; intros [= <- <-]; exact H0).
  destruct c0, r; try (rewrite E; intros [= <- <-]; exact H0).
  - destruct (allocSettings _ _) as [l h]. intros Hq.
    apply Hins in Hq as [-> ->]; [|done]. destruct H0 as [H1 _]. by split.
  - intros Hq. apply Hins in Hq as [-> ->]; [|done].
    destruct H0 as [H1 _]. by split.
  - intros Hq. apply Hins in Hq as [-> ->]; [|done].
    destruct H0 as [H1 _]. by split.
  - intros Hq. apply Hins in Hq as [-> ->]; [|done].
    destruct H0 as [H1 _]. by split.
Qed.

Lemma promisesIssued_exec o s : promisesIssued s → promisesIssued (exec toINode o s).
Proof.
  intros H. destruct o as [| | | |ev|p r|ed]; unfold exec; simpl.
  - done.
  - eapply promisesIssued_mono; [| |exact H].
    + unfold hide. by rewrite promises_leaveEditMode.
    + apply (log_prefix_exec CallHide).
  - by apply promisesIssued_enterEditMode.
  - eapply promisesIssued_mono; [| |exact H].
    + by rewrite promises_leaveEditMode.
    + apply log_prefix_leaveEditMode.
  - destruct ev; simpl.
    + by apply promisesIssued_enterEditMode.
    + eapply promisesIssued_mono; [| |exact H].
      * by rewrite promises_leaveEditMode.
      * apply log_prefix_leaveEditMode.
    + eapply promisesIssued_mono; [| |exact H]; [done|].
      apply (log_prefix_exec (ToolbarEmits TbExpand)).
    + eapply promisesIssued_mono; [| |exact H]; [done|].
      apply (log_prefix_exec (ToolbarEmits TbCollapse)).
    + destruct (menuSettings s); simpl; [|done].
      eapply promisesIssued_mono; [| |exact H]; [done|]. by eexists.
  - eapply promisesIssued_mono; [| |apply (promisesIssued_settle p r), H].
    + apply promises_hostReply.
    + unfold hostReply, runJoins.
      etrans; [|apply log_prefix_foldl_runJoin]. done.
  - done.
Qed.

Lemma reachable_promisesIssued s : reachable toINode s → promisesIssued s.
Proof.
  induction 1 as [c t|o s _ IH].
  - intros p c' o' Hp. simpl in Hp. by rewrite lookup_nil in Hp.
  - by apply promisesIssued_exec.
Qed.


Lemma joinStatus_Ready (ps : list (HostCall * Outcome)) j l n :
  joinStatus ps j = Ready l n →
  ∃ c c', ps !! j.1 = Some (c, FulfilledSettings l) ∧
          ps !! j.2 = Some (c', FulfilledNumber n).
Proof.
  unfold joinStatus.
  destruct (ps !! j.1) as [[c []]|]; destruct (ps !! j.2) as [[c' []]|];
    try done.
  intros [= <- <-]. by exists c, c'.
Qed.

Lemma settle_keeps_settled p r s q c (out : Outcome) :
  promises s !! q = Some (c, out) → out ≠ Pending →
  promises (settle p r s) !! q = Some (c, out).
Proof.
  intros Hq Hout. destruct (decide (q = p)) as [->|Hne].
  - unfold settle. rewrite Hq. by destruct out.
  - by rewrite promises_settle_ne.
Qed.

Lemma settingsFromHost_mono s s' :
  menuSettings s' = menuSettings s ∨ menuSettings s' = None →
  (∀ p l, promises s !! p = Some (CallGet, FulfilledSettings l) →
          promises s' !! p = Some (CallGet, FulfilledSettings l)) →
  log s `prefix_of` log s' →
  settingsFromHost s → settingsFromHost s'.
Proof.
  intros Hm Hp Hl H l Hs'. destruct Hm as [Hm|Hm]; [|congruence].
  rewrite Hm in Hs'. destruct (H l Hs') as (p & Hpp & Hin).
  exists p. split; [by apply Hp|by eapply elem_of_prefix].
Qed.

Lemma settingsFromHost_runJoin s j :
  promisesIssued s → settingsFromHost s → settingsFromHost (runJoin s j).
Proof.
  intros Hi H. unfold runJoin. destruct (joinStatus _ _) as [|l n|] eqn:E; try done.
  apply joinStatus_Ready in E as (c & c' & H1 & _).
  intros l' [= <-]. exists j.1. simpl.
  pose proof (Hi _ _ _ H1) as Hc. destruct c.
  - destruct Hc as [Hc _]. split; [done|]. set_solver.
  - destruct Hc as [_ Hc]. by destruct (Hc l).
Qed.

Lemma settingsFromHost_foldl_runJoin js s :
  promisesIssued s → settingsFromHost s → settingsFromHost (foldl runJoin s js).
Proof.
  revert s. induction js as [|j js IH]; intros s Hi H; simpl; [done|].
  apply IH.
  - eapply promisesIssued_mono; [| |exact Hi].
    + apply promises_runJoin.
    + apply log_prefix_runJoin.
  - by apply settingsFromHost_runJoin.
Qed.

Lemma settingsFromHost_exec o s :
  promisesIssued s → settingsFromHost s → settingsFromHost (exec toINode o s).
Proof.
  intros Hi H.
  assert (Hleave : ∀ s', promisesIssued s' → settingsFromHost s' →
                         settingsFromHost (leaveEditMode toINode s')).
  { intros s' _ H'. eapply settingsFromHost_mono; [| | |exact H'].
    - destruct (isInEditMode s') eqn:E.
      + right. by apply menuSettings_leaveEditMode.
      + left. by rewrite leaveEditMode_noop.
    - intros p l. by rewrite promises_leaveEditMode.
    - apply log_prefix_leaveEditMode. }
  assert (Henter : settingsFromHost (enterEditMode s)).
  { eapply settingsFromHost_mono; [| | |exact H].
    - left. apply menuSettings_enterEditMode.
    - intros p l Hp. rewrite promises_enterEditMode.
      destruct (isInEditMode s); [done|]. by apply lookup_app_l_Some.
    - apply log_prefix_enterEditMode. }
  destruct o as [| | | |ev|p r|ed]; unfold exec; simpl.
  - done.
  - unfold hide. by apply Hleave.
  - done.
  - by apply Hleave.
  - destruct ev; simpl.
    + done.
    + by apply Hleave.
    + eapply settingsFromHost_mono; [| | |exact H]; [by left|done|].
      apply (log_prefix_exec (ToolbarEmits TbExpand)).
    + eapply settingsFromHost_mono; [| | |exact H]; [by left|done|].
      apply (log_prefix_exec (ToolbarEmits TbCollapse)).
    + destruct (menuSettings s) eqn:E; simpl; [|done].
      eapply settingsFromHost_mono; [| | |exact H]; [by left|done|]. by eexists.
  - unfold hostReply, runJoins. apply settingsFromHost_foldl_runJoin.
    + eapply promisesIssued_mono; [| |apply (promisesIssued_settle p r), Hi]; done.
    + eapply settingsFromHost_mono; [| | |exact H].
      * left. simpl. apply menuSettings_settle.
      * intros q l Hq. simpl. by apply settle_keeps_settled.
      * simpl. by rewrite log_settle.
  - done.
Qed.

Lemma reachable_settingsFromHost s : reachable toINode s → settingsFromHost s.
Proof.
  induction 1 as [c t|o s Hr IH].
  - by intros l.
  - apply settingsFromHost_exec; [by apply reachable_promisesIssued|done].
Qed.

(** ** Conversion of the menus before they are sent *)

Lemma settingsObjs_foldl_convertAt ms (st : @Store Node Meta) :
  settingsObjs (foldl (convertAt toINode) st ms) = settingsObjs st.
Proof.
  revert st. induction ms as [|m ms IH]; intros st; simpl; [done|].
  by rewrite IH.
Qed.

Lemma readMenus_convertMenus (st : @Store Node Meta) l l' :
  readMenus (convertMenus toINode st l) l' = readMenus st l'.
Proof.
  unfold readMenus, convertMenus. by rewrite settingsObjs_foldl_convertAt.
Qed.

Lemma iter_convert_fmap n (om : option (@IMenu Node Meta)) :
  Nat.iter n (convertMenu toINode) <$> (convertMenu toINode <$> om)
  = Nat.iter (S n) (convertMenu toINode) <$> om.
Proof.
  destruct om as [m|]; simpl; [|done]. f_equal.
  induction n as [|n IH]; simpl; [done|]. by rewrite IH.
Qed.

Lemma menuObjs_foldl_convertAt ms (st : @Store Node Meta) m :
  menuObjs (foldl (convertAt toINode) st ms) !! m
  = Nat.iter (timesListed m ms) (convertMenu toINode) <$> menuObjs st !! m.
Proof.
  revert st. induction ms as [|x ms IH]; intros st; simpl.
  - by destruct (menuObjs st !! m).
  - rewrite IH. simpl. unfold timesListed. rewrite filter_cons.
    destruct (decide (x = m)) as [->|Hne]; simpl.
    + rewrite lookup_alter_eq. apply iter_convert_fmap.
    + by rewrite lookup_alter_ne.
Qed.

Lemma timesListed_NoDup m ms : NoDup ms → m ∈ ms → timesListed m ms = 1.
Proof.
  unfold timesListed. induction 1 as [|x ms Hx Hnd IH]; [by intros ?%elem_of_nil|].
  rewrite filter_cons. intros [->|Hin]%elem_of_cons.
  - rewrite decide_True by done. simpl. f_equal.
    destruct (filter (λ y, y = x) ms) as [|y k] eqn:E; [done|].
    assert (Hy : y ∈ filter (λ y, y = x) ms) by (rewrite E; set_solver).
    apply list_elem_of_filter in Hy as [-> Hy]. done.
  - rewrite decide_False; [by apply IH|]. intros ->. done.
Qed.

Lemma omap_ext_in {A B} (g h : A → option B) (l : list A) :
  (∀ x, x ∈ l → g x = h x) → omap g l = omap h l.
Proof.
  induction l as [|x l IH]; intros H; [done|].
  assert (IH' : omap g l = omap h l).
  { apply IH. intros y Hy. apply H. set_solver. }
  assert (Hx : g x = h x) by (apply H; set_solver).
  simpl. rewrite Hx. destruct (h x); [f_equal|]; exact IH'.
Qed.

Lemma omap_fmap_inner {A B} (g : A → option B) (h : B → B) (l : list A) :
  omap (λ x, h <$> g x) l = h <$> omap g l.
Proof.
  induction l as [|x l IH]; [done|].
  simpl. destruct (g x); simpl; [f_equal|]; exact IH.
Qed.

Lemma snapshot_convertMenus (st : @Store Node Meta) l :
  snapshot (convertMenus toINode st l) l
  = omap (λ m, Nat.iter (timesListed m (readMenus st l)) (convertMenu toINode)
               <$> menuObjs st !! m) (readMenus st l).
Proof.
  unfold snapshot. rewrite readMenus_convertMenus. unfold convertMenus.
  apply omap_ext_in. intros m _. apply menuObjs_foldl_convertAt.
Qed.

Lemma snapshot_convertMenus_NoDup (st : @Store Node Meta) l :
  NoDup (readMenus st l) →
  snapshot (convertMenus toINode st l) l = convertMenu toINode <$> snapshot st l.
Proof.
  intros Hnd. rewrite snapshot_convertMenus. unfold snapshot.
  rewrite <- omap_fmap_inner. apply omap_ext_in. intros m Hm.
  by rewrite timesListed_NoDup.
Qed.


(** ** Calls of [set] *)

Lemma countIn_exec_sets f o s :
  onlySets f →
  countIn f (log (exec toINode o s)) =
  countIn f (log s) +
  (if isInEditMode s && negb (isInEditMode (exec toINode o s))
   then countIn f (leaveEffects toINode s) else 0).
Proof.
  intros Hf. rewrite isInEditMode_exec.
  assert (Hs : skipsPanelCalls f) by (split; intros; by apply Hf).
  assert (Henter : ∀ s', countIn f (log (enterEditMode s')) = countIn f (log s')).
  { intros s'. rewrite countIn_enterEditMode. destruct (isInEditMode s'); [lia|].
    rewrite !countIn_cons, countIn_nil, !Hf by done. simpl. lia. }
  destruct o as [| | | |ev|p r|ed]; unfold exec; simpl.
  - destruct (isInEditMode s); simpl; lia.
  - rewrite countIn_hide. by destruct (isInEditMode s).
  - rewrite Henter. destruct (isInEditMode s); simpl; lia.
  - rewrite countIn_leaveEditMode. by destruct (isInEditMode s).
  - destruct ev; simpl.
    + rewrite Henter. destruct (isInEditMode s); simpl; lia.
    + rewrite countIn_leaveEditMode. by destruct (isInEditMode s).
    + rewrite !countIn_app, !countIn_single, !Hf by done.
      destruct (isInEditMode s); simpl; lia.
    + rewrite !countIn_app, !countIn_single, !Hf by done.
      destruct (isInEditMode s); simpl; lia.
    + destruct (menuSettings s); simpl;
        rewrite ?countIn_app, ?countIn_single, ?Hf by done;
        destruct (isInEditMode s); simpl; lia.
  - rewrite countIn_hostReply by done. destruct (isInEditMode s); simpl; lia.
  - destruct (isInEditMode s); simpl; lia.
Qed.

Lemma countIn_construct f c tooltipElems :
  (∀ e a b, f (NewTooltip e a b) = false) →
  countIn f (log (@construct Node Meta c tooltipElems)) = 0.
Proof.
  intros Hf. simpl. induction tooltipElems as [|e t IH]; [done|].
  rewrite fmap_cons, countIn_cons, Hf. simpl. exact IH.
Qed.

Lemma countIn_construct_sets f c tooltipElems :
  onlySets f → countIn f (log (@construct Node Meta c tooltipElems)) = 0.
Proof. intros Hf. apply countIn_construct. intros e a b. by apply Hf. Qed.

Lemma isHostSet_leaveEffects s :
  countIn isHostSet (leaveEffects toINode s)
  = b2n (bool_decide (is_Some (menuSettings s))).
Proof.
  unfold leaveEffects. destruct (menuSettings s); [|done].
  rewrite bool_decide_eq_true_2 by done. reflexivity.
Qed.

Lemma isNullSet_leaveEffects s : countIn isNullSet (leaveEffects toINode s) = 0.
Proof. unfold leaveEffects. by destruct (menuSettings s). Qed.

Lemma onlySets_isHostSet : onlySets (@isHostSet Node Meta).
Proof. by intros e. Qed.

Lemma onlySets_isNullSet : onlySets (@isNullSet Node Meta).
Proof. intros e. by destruct e as [| | | | | | | | | |[]|]. Qed.

Lemma countIn_zero f (l : list (@Effect Node Meta)) e :
  countIn f l = 0 → e ∈ l → f e = false.
Proof.
  unfold countIn. intros H He. destruct (f e) eqn:E; [|done].
  assert (Hin : e ∈ filter (λ e, f e = true) l) by by apply list_elem_of_filter.
  destruct (filter _ l); [by apply elem_of_nil in Hin|done].
Qed.

Lemma reachable_no_null_set s :
  reachable toINode s → countIn isNullSet (log s) = 0.
Proof.
  induction 1 as [c t|o s _ IH].
  - apply countIn_construct_sets, onlySets_isNullSet.
  - rewrite countIn_exec_sets by apply onlySets_isNullSet.
    rewrite IH, isNullSet_leaveEffects. by destruct (_ && _).
Qed.

Lemma reachable_sets_le_leaves s :
  reachable toINode s → countIn isHostSet (log s) ≤ emitted "leave-edit-mode" s.
Proof.
  induction 1 as [c t|o s _ IH].
  - rewrite countIn_construct_sets by apply onlySets_isHostSet. lia.
  - rewrite countIn_exec_sets by apply onlySets_isHostSet.
    destruct (emitted_exec o s) as [_ ->]. rewrite isHostSet_leaveEffects.
    destruct (_ && _); simpl; [|lia].
    destruct (bool_decide _); simpl; lia.
Qed.

(** C9.  No [set] call in the log of a reachable state has [null] for
    its argument.  Every input adds at most one [set] call, and only when
    it takes the editor out of edit mode with settings stored; so there
    are never more [set] calls than ['leave-edit-mode'] events.  After a
    [leaveEditMode()] that left edit mode nothing is stored, and a further
    [leaveEditMode()] or [hide()] adds nothing to the log. *)
Theorem set_once_never_null s :
  reachable toINode s →
  (∀ arg payload, HostSet arg payload ∈ log s → arg ≠ None) ∧
  (∀ o, countIn isHostSet (log (exec toINode o s))
        = countIn isHostSet (log s)
          + b2n (isInEditMode s && negb (isInEditMode (exec toINode o s))
                 && bool_decide (is_Some (menuSettings s)))) ∧
  countIn isHostSet (log s) ≤ emitted "leave-edit-mode" s ∧
  (isInEditMode s = true → menuSettings (leaveEditMode toINode s) = None) ∧
  leaveEditMode toINode (leaveEditMode toINode s) = leaveEditMode toINode s ∧
  log (hide toINode (leaveEditMode toINode s)) = log (leaveEditMode toINode s).
Proof.
  intros Hr. repeat split.
  - intros arg payload Hin ->.
    by apply (countIn_zero _ _ _ (reachable_no_null_set s Hr)) in Hin.
  - intros o. rewrite countIn_exec_sets by apply onlySets_isHostSet.
    rewrite isHostSet_leaveEffects. by destruct (_ && negb _).
  - by apply reachable_sets_le_leaves.
  - apply menuSettings_leaveEditMode.
  - apply leaveEditMode_noop, isInEditMode_leaveEditMode.
  - unfold hide. rewrite leaveEditMode_noop; [done|].
    unfold isInEditMode, classes. simpl.
    rewrite TokenFacts.contains_remove_ne by done.
    apply isInEditMode_leaveEditMode.
Qed.


(** ** Promises and continuations *)

Lemma kinds_settle p r s : (promises (settle p r s)).*1 = (promises s).*1.
Proof.
  unfold settle. destruct (promises s !! p) as [[c out]|] eqn:E; [|done].
  assert (Hins : ∀ (out' : Outcome),
            (<[p := (c, out')]> (promises s)).*1 = (promises s).*1).
  { intros out'. rewrite list_fmap_insert. apply list_insert_id.
    by rewrite list_lookup_fmap, E. }
  destruct out; try done.
  destruct c, r; try done; simpl; try destruct (allocSettings _ _); simpl;
    apply Hins.
Qed.







Lemma coordination_exec o s :
  if negb (isInEditMode s) && isInEditMode (exec toINode o s)
  then promises (exec toINode o s)
       = promises s ++ [(CallGet, Pending); (CallGetCurrentMenu, Pending)] ∧
       joins (exec toINode o s)
       = joins s ++ [(length (promises s), S (length (promises s)))]
  else (promises (exec toINode o s)).*1 = (promises s).*1 ∧
       joins (exec toINode o s)
       = match o with
         | HostReplies _ _ =>
             filter (λ j, isWaiting (promises (exec toINode o s)) j = true) (joins s)
         | _ => joins s
         end.
Proof.
  rewrite isInEditMode_exec.
  assert (Henter :
    if negb (isInEditMode s) && true
    then promises (enterEditMode s)
         = promises s ++ [(CallGet, Pending); (CallGetCurrentMenu, Pending)] ∧
         joins (enterEditMode s)
         = joins s ++ [(length (promises s), S (length (promises s)))]
    else (promises (enterEditMode s)).*1 = (promises s).*1 ∧
         joins (enterEditMode s) = joins s).
  { rewrite promises_enterEditMode, joins_enterEditMode.
    by destruct (isInEditMode s). }
  assert (Hleave : (promises (leaveEditMode toINode s)).*1 = (promises s).*1 ∧
                   joins (leaveEditMode toINode s) = joins s).
  { by rewrite promises_leaveEditMode, joins_leaveEditMode. }
  destruct o as [| | | |ev|p r|ed]; unfold exec; simpl.
  - by destruct (isInEditMode s).
  - rewrite andb_false_r. unfold hide.
    by rewrite promises_leaveEditMode, joins_leaveEditMode.
  - exact Henter.
  - by rewrite andb_false_r.
  - destruct ev; simpl.
    + exact Henter.
    + by rewrite andb_false_r.
    + by destruct (isInEditMode s).
    + by destruct (isInEditMode s).
    + destruct (menuSettings s); by destruct (isInEditMode s).
  - replace (negb (isInEditMode s) && isInEditMode s) with false
      by by destruct (isInEditMode s).
    rewrite promises_hostReply, kinds_settle, joins_hostReply. done.
  - by destruct (isInEditMode s).
Qed.

Lemma length_promises_exec o s :
  length (promises (exec toINode o s))
  = length (promises s)
    + 2 * b2n (negb (isInEditMode s) && isInEditMode (exec toINode o s)).
Proof.
  pose proof (coordination_exec o s) as H.
  destruct (negb _ && _).
  - destruct H as [-> _]. rewrite length_app. simpl. lia.
  - destruct H as [H _]. apply (f_equal length) in H.
    rewrite !length_fmap in H. simpl. lia.
Qed.

Lemma reachable_promises_per_enter s :
  reachable toINode s → length (promises s) = 2 * emitted "enter-edit-mode" s.
Proof.
  induction 1 as [c t|o s _ IH].
  - unfold emitted. by rewrite countIn_construct.
  - rewrite length_promises_exec. destruct (emitted_exec o s) as [-> _]. lia.
Qed.


(** C8 (amended).  After [hide()] the editor is not in edit mode and the
    container has neither ['visible'] nor ['edit-mode'].  If the editor
    was in edit mode and held settings, [hide()] has sent them to the
    host and holds none any more; if it was not in edit mode, [hide()]
    has made no call at all and holds what it held. *)
Theorem hide_leaves_edit_mode s :
  isInEditMode (hide toINode s) = false ∧
  isVisible (hide toINode s) = false ∧
  (isInEditMode s = true →
     menuSettings (hide toINode s) = None ∧
     ∀ settings, menuSettings s = Some settings →
       ∃ payload,
         log (hide toINode s)
         = log s ++ [HostSet (Some settings) payload; Emit "leave-edit-mode"]) ∧
  (isInEditMode s = false →
     log (hide toINode s) = log s ∧
     menuSettings (hide toINode s) = menuSettings s).
Proof.
  split; [apply isInEditMode_hide|].
  split; [apply isVisible_hide|].
  assert (Hflag : isInEditMode
            (setContainer (mapClassList (λ cl, DOMTokenList.remove cl "visible")
                             (container s)) s) = isInEditMode s).
  { unfold isInEditMode, classes. simpl.
    by rewrite TokenFacts.contains_remove_ne. }
  split.
  - intros Hf. unfold hide. split.
    + apply menuSettings_leaveEditMode. by rewrite Hflag.
    + intros settings Hm. eexists.
      rewrite log_leaveEditMode by by rewrite Hflag.
      unfold leaveEffects. simpl. rewrite Hm. reflexivity.
  - intros Hf. unfold hide. rewrite leaveEditMode_noop by by rewrite Hflag.
    done.
Qed.

(** C4 (amended).  The constructor appends the containers of five
    sub-panels to the given container, those of the background, the
    preview, the properties view, the sidebar and the toolbar, in this
    order, and changes nothing else of it. *)
Theorem constructor_appends_five (c : HTMLElement) (tooltipElems : list nat) :
  childNodes (container (@construct Node Meta c tooltipElems))
  = childNodes c ++ (ContainerOf <$> panels) ∧
  length panels = 5 ∧
  appendsPanels 5 c (@construct Node Meta c tooltipElems) ∧
  classList (container (@construct Node Meta c tooltipElems)) = classList c.
Proof.
  assert (H : childNodes (container (@construct Node Meta c tooltipElems))
              = childNodes c ++ (ContainerOf <$> panels)).
  { simpl. by rewrite <- !app_assoc. }
  repeat split; try done. by exists panels.
Qed.

Lemma reachable_run ops s : reachable toINode s → reachable toINode (run toINode ops s).
Proof.
  revert s. induction ops as [|o ops IH]; intros s H; simpl; [done|].
  apply IH. by constructor.
Qed.


(** ** A continuation from registration to its run *)

Lemma awaits_distinct s a b (oa ob : Outcome) : awaits s a b oa ob → a ≠ b.
Proof. intros (_ & Ha & Hb) ->. congruence. Qed.

Lemma awaits_waiting s a b (oa ob : Outcome) :
  joinsWait s → awaits s a b oa ob → isWaiting (promises s) (a, b) = true.
Proof.
  intros Hw (Hin & _). unfold joinsWait in Hw. rewrite Forall_forall in Hw.
  by destruct (Hw _ Hin) as (_ & _ & H).
Qed.

Lemma awaits_frame s s' a b (oa ob : Outcome) :
  promises s' = promises s → joins s' = joins s →
  awaits s a b oa ob → awaits s' a b oa ob.
Proof. unfold awaits. by intros -> ->. Qed.

Lemma awaits_enterEditMode s a b (oa ob : Outcome) :
  awaits s a b oa ob → awaits (enterEditMode s) a b oa ob.
Proof.
  intros (Hin & Ha & Hb). unfold awaits.
  rewrite promises_enterEditMode, joins_enterEditMode.
  destruct (isInEditMode s); [done|].
  split; [set_solver|]. split; by apply lookup_app_l_Some.
Qed.

Lemma awaits_exec o s a b (oa ob : Outcome) :
  joinsWait s → quiet a b o →
  awaits s a b oa ob → awaits (exec toINode o s) a b oa ob.
Proof.
  intros Hw Hq H.
  assert (Hleave : awaits (leaveEditMode toINode s) a b oa ob).
  { eapply awaits_frame; [| |exact H].
    - apply promises_leaveEditMode.
    - apply joins_leaveEditMode. }
  destruct o as [| | | |ev|p r|ed]; unfold exec; simpl.
  - done.
  - eapply awaits_frame; [| |exact H]; unfold hide.
    + by rewrite promises_leaveEditMode.
    + by rewrite joins_leaveEditMode.
  - by apply awaits_enterEditMode.
  - done.
  - destruct ev; simpl; try done.
    + by apply awaits_enterEditMode.
    + by destruct (menuSettings s).
  - destruct Hq as [Hpa Hpb]. pose proof (awaits_waiting _ _ _ _ _ Hw H) as Hwait.
    destruct H as (Hin & Ha & Hb). unfold awaits.
    rewrite joins_hostReply, promises_hostReply, !promises_settle_ne by done.
    split; [|done]. apply list_elem_of_filter. split; [|done].
    rewrite <- Hwait. apply isWaiting_ext; simpl; by rewrite promises_settle_ne.
  - done.
Qed.

Lemma awaits_run ops s a b (oa ob : Outcome) :
  reachable toINode s → Forall (quiet a b) ops →
  awaits s a b oa ob → awaits (run toINode ops s) a b oa ob.
Proof.
  revert s. induction ops as [|o ops IH]; intros s Hr Hq H; simpl; [done|].
  apply Forall_cons in Hq as [Ho Hq]. apply IH; [by constructor|done|].
  apply awaits_exec; [by apply reachable_joinsWait|done..].
Qed.

Lemma joinsApart_exec o s :
  reachable toINode s → joinsApart s → joinsApart (exec toINode o s).
Proof.
  intros Hr [Hnd Hall]. unfold joinsApart.
  pose proof (coordination_exec o s) as H. destruct (negb _ && _).
  - destruct H as [_ ->]. split.
    + apply NoDup_app. split; [done|]. split; [|apply NoDup_singleton].
      intros j Hj ->%list_elem_of_singleton.
      pose proof (reachable_joinsWait s Hr) as Hw.
      unfold joinsWait in Hw. rewrite Forall_forall in Hw.
      destruct (Hw _ Hj) as (Hlt & _). simpl in Hlt. lia.
    + apply Forall_app. split; [done|]. apply Forall_singleton. simpl.
      split; [done|]. rewrite (reachable_promises_per_enter s Hr).
      apply Nat.even_spec. by eexists.
  - destruct H as [_ ->]. destruct o; try done. split.
    + by apply NoDup_filter.
    + apply Forall_forall. intros j [_ Hj]%list_elem_of_filter.
      rewrite Forall_forall in Hall. by apply Hall.
Qed.

Lemma reachable_joinsApart s : reachable toINode s → joinsApart s.
Proof.
  induction 1 as [c t|o s Hr IH].
  - split; [apply NoDup_nil_2|apply Forall_nil_2].
  - by apply joinsApart_exec.
Qed.

(** A reply to one promise of a pair leaves every other continuation
    waiting. *)
Lemma others_wait s a b p r j :
  joinsWait s → joinsApart s → (a, b) ∈ joins s → p = a ∨ p = b →
  j ∈ joins s → j ≠ (a, b) →
  isWaiting (promises (settle p r s)) j = true.
Proof.
  intros Hw [_ Hall] Hab Hp Hj Hne.
  unfold joinsWait in Hw. rewrite Forall_forall in Hw, Hall.
  destruct (Hw _ Hj) as (_ & _ & <-).
  destruct (Hall _ Hj) as [Hj2 Hje]. destruct (Hall _ Hab) as [Hb Hae].
  simpl in *. apply Nat.even_spec in Hje as [kj Hkj].
  apply Nat.even_spec in Hae as [ka Hka].
  assert (j.1 ≠ a).
  { intros Heq. apply Hne. destruct j as [j1 j2]. simpl in *. f_equal; lia. }
  apply isWaiting_ext; rewrite promises_settle_ne; try done; lia.
Qed.

(** The reply that fulfils a [Promise.all] runs its continuation and no
    other. *)
Lemma hostReply_completes s a b p r l n :
  joinsWait s → joinsApart s → (a, b) ∈ joins s → p = a ∨ p = b →
  joinStatus (promises (settle p r s)) (a, b) = Ready l n →
  ∃ js, hostReply p r s = onSettings l n (setJoins js (settle p r s)).
Proof.
  intros Hw Hap Hab Hp Hr.
  destruct (list_elem_of_split _ _ Hab) as (js1 & js2 & Hjs).
  destruct Hap as [Hnd Hall]. pose proof Hnd as Hnd'. rewrite Hjs in Hnd'.
  apply NoDup_app in Hnd' as (_ & Hnot1 & [Hnot2 _]%NoDup_cons).
  exists (js1 ++ js2). unfold hostReply.
  apply (runJoins_one_ready _ js1 (a, b) js2); [by rewrite joins_settle|..|done].
  - apply Forall_forall. intros j Hj.
    apply (others_wait s a b); try done.
    + rewrite Hjs, elem_of_app. by left.
    + intros ->. apply (Hnot1 _ Hj). apply elem_of_cons. by left.
  - apply Forall_forall. intros j Hj.
    apply (others_wait s a b); try done.
    + rewrite Hjs, elem_of_app, elem_of_cons. auto.
    + by intros ->.
Qed.

Lemma settle_get s a data :
  promises s !! a = Some (CallGet, Pending) →
  settle a (ReplySettings data) s
  = setOutcome a CallGet (FulfilledSettings (allocSettings data (heap s)).1)
      (setHeap (allocSettings data (heap s)).2 s).
Proof. intros H. unfold settle. rewrite H. by destruct (allocSettings _ _). Qed.

Lemma settle_cur s b n :
  promises s !! b = Some (CallGetCurrentMenu, Pending) →
  settle b (ReplyNumber n) s
  = setOutcome b CallGetCurrentMenu (FulfilledNumber n) s.
Proof. intros H. unfold settle. by rewrite H. Qed.

Lemma awaits_reply_get s a b data (ob : Outcome) :
  joinsWait s → awaits s a b Pending ob → (∀ n, ob ≠ FulfilledNumber n) →
  awaits (hostReply a (ReplySettings data) s) a b
    (FulfilledSettings (allocSettings data (heap s)).1) ob ∧
  heap (hostReply a (ReplySettings data) s) = (allocSettings data (heap s)).2.
Proof.
  intros Hw H Hob. pose proof (awaits_distinct _ _ _ _ _ H) as Hne.
  pose proof (awaits_waiting _ _ _ _ _ Hw H) as Hwait.
  destruct H as (Hin & Ha & Hb).
  assert (Hlt : a < length (promises s)) by by apply lookup_lt_Some in Ha.
  unfold awaits.
  rewrite joins_hostReply, promises_hostReply, heap_hostReply, settle_get by done.
  simpl. rewrite list_lookup_insert_eq by done.
  rewrite list_lookup_insert_ne by done.
  repeat split; try done.
  apply list_elem_of_filter. split; [|done].
  revert Hwait. unfold isWaiting, joinStatus. simpl.
  rewrite list_lookup_insert_eq by done.
  rewrite list_lookup_insert_ne by done. rewrite Ha, Hb.
  destruct ob; try done. by destruct (Hob n).
Qed.

Lemma awaits_reply_cur s a b n (oa : Outcome) :
  joinsWait s → awaits s a b oa Pending → (∀ l, oa ≠ FulfilledSettings l) →
  awaits (hostReply b (ReplyNumber n) s) a b oa (FulfilledNumber n) ∧
  heap (hostReply b (ReplyNumber n) s) = heap s.
Proof.
  intros Hw H Hoa. pose proof (awaits_distinct _ _ _ _ _ H) as Hne.
  pose proof (awaits_waiting _ _ _ _ _ Hw H) as Hwait.
  destruct H as (Hin & Ha & Hb).
  assert (Hlt : b < length (promises s)) by by apply lookup_lt_Some in Hb.
  unfold awaits.
  rewrite joins_hostReply, promises_hostReply, heap_hostReply, settle_cur by done.
  simpl. rewrite list_lookup_insert_eq by done.
  rewrite list_lookup_insert_ne by done.
  repeat split; try done.
  apply list_elem_of_filter. split; [|done].
  revert Hwait. unfold isWaiting, joinStatus. simpl.
  rewrite list_lookup_insert_eq by done.
  rewrite list_lookup_insert_ne by done. rewrite Ha, Hb.
  destruct oa; try done. by destruct (Hoa settings).
Qed.

Lemma awaits_enter_new s :
  isInEditMode s = false →
  awaits (enterEditMode s) (length (promises s)) (S (length (promises s)))
    Pending Pending.
Proof.
  intros Hf. unfold awaits.
  rewrite promises_enterEditMode, joins_enterEditMode, Hf.
  rewrite lookup_new_1, lookup_new_2. split; [set_solver|done].
Qed.


(** * Further properties of the editor *)

(** ** The log under one input *)

Lemma flag_without_visible s :
  isInEditMode
    (setContainer (mapClassList (λ cl, DOMTokenList.remove cl "visible")
                     (container s)) s)
  = isInEditMode s.
Proof.
  unfold isInEditMode, classes. simpl.
  by rewrite TokenFacts.contains_remove_ne.
Qed.

Lemma log_hide s :
  log (hide toINode s)
  = log s ++ (if isInEditMode s then leaveEffects toINode s else []).
Proof.
  unfold hide. destruct (isInEditMode s) eqn:E.
  - rewrite log_leaveEditMode by by rewrite flag_without_visible. done.
  - rewrite leaveEditMode_noop by by rewrite flag_without_visible.
    simpl. by rewrite app_nil_r.
Qed.

Lemma log_exec_direct o s :
  (∀ p r, o ≠ HostReplies p r) →
  log (exec toINode o s) = log s ++ directEffects toINode o s.
Proof.
  intros Ho.
  assert (Henter : log (enterEditMode s)
                   = log s ++ directEffects toINode CallEnterEditMode s).
  { simpl. destruct (isInEditMode s) eqn:E.
    - rewrite enterEditMode_noop by done. by rewrite app_nil_r.
    - by apply log_enterEditMode. }
  assert (Hleave : log (leaveEditMode toINode s)
                   = log s ++ directEffects toINode CallLeaveEditMode s).
  { simpl. destruct (isInEditMode s) eqn:E.
    - by apply log_leaveEditMode.
    - rewrite leaveEditMode_noop by done. by rewrite app_nil_r. }
  destruct o as [| | | |ev|p r|ed]; unfold exec; simpl.
  - by rewrite app_nil_r.
  - apply log_hide.
  - exact Henter.
  - exact Hleave.
  - destruct ev; simpl.
    + exact Henter.
    + exact Hleave.
    + by rewrite <- app_assoc.
    + by rewrite <- app_assoc.
    + destruct (menuSettings s); simpl; [done|by rewrite app_nil_r].
  - by destruct (Ho p r).
  - by rewrite app_nil_r.
Qed.

Lemma countIn_exec f o s :
  skipsPanelCalls f →
  countIn f (log (exec toINode o s))
  = countIn f (log s) + countIn f (directEffects toINode o s).
Proof.
  intros Hf.
  assert (Hd : ∀ o', (∀ p r, o' ≠ HostReplies p r) →
            countIn f (log (exec toINode o' s))
            = countIn f (log s) + countIn f (directEffects toINode o' s)).
  { intros o' Ho. by rewrite log_exec_direct, countIn_app. }
  destruct o as [| | | |ev|p r|ed]; try (by apply Hd).
  unfold exec. simpl. rewrite countIn_hostReply by done.
  rewrite countIn_nil. lia.
Qed.

Lemma log_prefix_run ops s : log s `prefix_of` log (run toINode ops s).
Proof.
  revert s. induction ops as [|o ops IH]; intros s; simpl; [done|].
  etrans; [apply log_prefix_exec|apply IH].
Qed.

(** ** The sub-panels *)

(** X1.  The preview and the properties view are hidden together and
    shown together: only the toolbar's ['expand'] hides them and only its
    ['collapse'] shows them, each time both, in edit mode or not; so in a
    reachable state each has been hidden as often as the other, and shown
    as often as the other. *)
Theorem preview_and_properties_together s :
  (∀ o,
     countIn isPreviewHide (log (exec toINode o s))
     = countIn isPreviewHide (log s)
       + match o with ToolbarEmits TbExpand => 1 | _ => 0 end ∧
     countIn isPreviewShow (log (exec toINode o s))
     = countIn isPreviewShow (log s)
       + match o with ToolbarEmits TbCollapse => 1 | _ => 0 end) ∧
  (reachable toINode s →
     countIn isPreviewHide (log s) = countIn isPropertiesHide (log s) ∧
     countIn isPreviewShow (log s) = countIn isPropertiesShow (log s)).
Proof.
  assert (Hdirect : ∀ o s',
    countIn isPreviewHide (directEffects toINode o s')
    = match o with ToolbarEmits TbExpand => 1 | _ => 0 end ∧
    countIn isPropertiesHide (directEffects toINode o s')
    = match o with ToolbarEmits TbExpand => 1 | _ => 0 end ∧
    countIn isPreviewShow (directEffects toINode o s')
    = match o with ToolbarEmits TbCollapse => 1 | _ => 0 end ∧
    countIn isPropertiesShow (directEffects toINode o s')
    = match o with ToolbarEmits TbCollapse => 1 | _ => 0 end).
  { intros o s'.
    assert (Hl : ∀ f, (∀ a b, f (HostSet a b) = false) →
                      (∀ ev, f (Emit ev) = false) →
                      countIn f (leaveEffects toINode s') = 0).
    { intros f H1 H2. unfold leaveEffects. rewrite countIn_app, countIn_single, H2.
      destruct (menuSettings s'); [rewrite countIn_single, H1|]; done. }
    destruct o as [| | | |ev|p r|ed]; simpl; try done.
    - destruct (isInEditMode s'); [|done]. by rewrite !Hl.
    - by destruct (isInEditMode s').
    - destruct (isInEditMode s'); [|done]. by rewrite !Hl.
    - destruct ev; simpl; try done.
      + by destruct (isInEditMode s').
      + destruct (isInEditMode s'); [|done]. by rewrite !Hl.
      + by destruct (menuSettings s'). }
  split.
  - intros o. rewrite !countIn_exec by by split.
    destruct (Hdirect o s) as (-> & _ & -> & _). done.
  - induction 1 as [c t|o s Hr [IH1 IH2]].
    + rewrite !countIn_construct by done. done.
    + rewrite !countIn_exec by by split.
      destruct (Hdirect o s) as (-> & -> & -> & ->). lia.
Qed.

(** X2.  The sidebar is hidden once for every entry into edit mode and is
    never made visible again by the editor: no input makes it call
    [setVisibility(true)]. *)
Theorem sidebar_only_hidden s :
  reachable toINode s →
  countIn (isSidebarCall true) (log s) = 0 ∧
  countIn (isSidebarCall false) (log s) = emitted "enter-edit-mode" s.
Proof.
  assert (Hl : ∀ v s', countIn (isSidebarCall v) (leaveEffects toINode s') = 0).
  { intros v s'. unfold leaveEffects. by destruct (menuSettings s'). }
  assert (Hdirect : ∀ o s',
    countIn (isSidebarCall true) (directEffects toINode o s') = 0 ∧
    countIn (isSidebarCall false) (directEffects toINode o s')
    = countIn (isEmit "enter-edit-mode") (directEffects toINode o s')).
  { intros o s'. destruct o as [| | | |ev|p r|ed]; simpl; try done.
    - destruct (isInEditMode s'); [rewrite !Hl, emitted_leaveEffects|]; done.
    - by destruct (isInEditMode s').
    - destruct (isInEditMode s'); [rewrite !Hl, emitted_leaveEffects|]; done.
    - destruct ev; simpl; try done.
      + by destruct (isInEditMode s').
      + destruct (isInEditMode s'); [rewrite !Hl, emitted_leaveEffects|]; done.
      + by destruct (menuSettings s'). }
  unfold emitted. induction 1 as [c t|o s Hr [IH1 IH2]].
  - by rewrite !countIn_construct.
  - rewrite !countIn_exec by by split.
    destruct (Hdirect o s) as (-> & ->). lia.
Qed.

(** X3.  Tooltips are created by the constructor only: the log of any run
    starts with one tooltip, with delays 500 and 0, for each element the
    document query returned, in order, and has no further one. *)
Theorem tooltips_at_construction (c : HTMLElement) (tooltipElems : list nat) ops :
  ∃ rest,
    log (run toINode ops (@construct Node Meta c tooltipElems))
    = ((λ e, NewTooltip e 500 0) <$> tooltipElems) ++ rest ∧
    countIn isNewTooltip rest = 0.
Proof.
  destruct (log_prefix_run ops (construct c tooltipElems)) as [rest Hrest].
  exists rest. split; [done|].
  assert (Hcount : ∀ ops' (s : @State Node Meta),
            countIn isNewTooltip (log (run toINode ops' s))
            = countIn isNewTooltip (log s)).
  { induction ops' as [|o ops' IH]; intros s; simpl; [done|].
    rewrite IH, countIn_exec by by split.
    assert (countIn isNewTooltip (directEffects toINode o s) = 0); [|lia].
    assert (Hl : countIn isNewTooltip (leaveEffects toINode s) = 0).
    { unfold leaveEffects. by destruct (menuSettings s). }
    destruct o as [| | | |ev|p r|ed]; simpl; try done.
    - by destruct (isInEditMode s).
    - by destruct (isInEditMode s).
    - by destruct (isInEditMode s).
    - destruct ev; simpl; try done.
      + by destruct (isInEditMode s).
      + by destruct (isInEditMode s).
      + by destruct (menuSettings s). }
  specialize (Hcount ops (construct c tooltipElems)).
  rewrite Hrest, countIn_app in Hcount. lia.
Qed.

(** ** The container *)

Lemma childNodes_exec o s :
  childNodes (container (exec toINode o s)) = childNodes (container s).
Proof.
  assert (Henter : ∀ s', childNodes (container (enterEditMode s'))
                         = childNodes (container s')).
  { intros s'. unfold enterEditMode. by destruct (isInEditMode s'). }
  assert (Hleave : ∀ s', childNodes (container (leaveEditMode toINode s'))
                         = childNodes (container s')).
  { intros s'. unfold leaveEditMode. destruct (isInEditMode s'); simpl; [|done].
    by destruct (menuSettings s'). }
  destruct o as [| | | |ev|p r|ed]; unfold exec; simpl; try done.
  - unfold hide. by rewrite Hleave.
  - destruct ev; simpl; try done. by destruct (menuSettings s).
  - by rewrite container_hostReply.
Qed.

(** X4.  After construction the editor never adds, removes or reorders
    children of its container: in every state of every run they are the
    children the container had, followed by the five panel containers. *)
Theorem children_fixed_after_construction
    (c : HTMLElement) (tooltipElems : list nat) ops :
  childNodes (container (run toINode ops (@construct Node Meta c tooltipElems)))
  = childNodes c ++ (ContainerOf <$> panels).
Proof.
  assert (Hrun : ∀ ops' (s : @State Node Meta),
            childNodes (container (run toINode ops' s)) = childNodes (container s)).
  { induction ops' as [|o ops' IH]; intros s; simpl; [done|].
    by rewrite IH, childNodes_exec. }
  rewrite Hrun. simpl. by rewrite <- !app_assoc.
Qed.

(** X5.  Visibility is a second flag that only [show()] and [hide()]
    move: under every input the new visibility is a function of the input
    and the old visibility.  In particular entering and leaving edit mode
    (by method or by toolbar) do not show or hide the editor, and the
    editor can be in edit mode while hidden. *)
Theorem visibility_machine o s :
  isVisible (exec toINode o s) = visibleAfter o (isVisible s).
Proof.
  assert (Henter : ∀ s', isVisible (enterEditMode s') = isVisible s').
  { intros s'. unfold isVisible. rewrite classes_enterEditMode.
    by apply TokenFacts.contains_add_ne. }
  assert (Hleave : ∀ s', isVisible (leaveEditMode toINode s') = isVisible s').
  { intros s'. unfold isVisible. rewrite classes_leaveEditMode.
    by apply TokenFacts.contains_remove_ne. }
  destruct o as [| | | |ev|p r|ed]; unfold exec; simpl; try done.
  - apply TokenFacts.contains_add.
  - apply isVisible_hide.
  - destruct ev; simpl; try done. by destruct (menuSettings s).
  - unfold isVisible, classes. by rewrite container_hostReply.
Qed.

(** ** Events *)

(** X6.  The two events alternate.  Along any run, from any state, the
    ['enter-edit-mode'] events emitted and the ['leave-edit-mode'] events
    emitted differ by the change of the flag: one more enter in a run
    that starts outside edit mode and ends in it, one more leave in the
    opposite case, as many of each otherwise. *)
Theorem events_alternate ops s :
  emitted "enter-edit-mode" (run toINode ops s)
  + emitted "leave-edit-mode" s + b2n (isInEditMode s)
  = emitted "leave-edit-mode" (run toINode ops s)
    + emitted "enter-edit-mode" s + b2n (isInEditMode (run toINode ops s)).
Proof.
  revert s. induction ops as [|o ops IH]; intros s; simpl; [lia|].
  specialize (IH (exec toINode o s)).
  destruct (emitted_exec o s) as [He Hl].
  destruct (isInEditMode s), (isInEditMode (exec toINode o s));
    simpl in *; lia.
Qed.


(** ** Replies that complete nothing, replies that complete a fetch *)

Lemma runJoin_not_ready s j :
  (∀ l n, joinStatus (promises s) j ≠ Ready l n) → runJoin s j = s.
Proof.
  intros H. unfold runJoin. destruct (joinStatus _ _) eqn:E; try done.
  by destruct (H settings currentMenu).
Qed.

Lemma foldl_runJoin_not_ready js s :
  Forall (λ j, ∀ l n, joinStatus (promises s) j ≠ Ready l n) js →
  foldl runJoin s js = s.
Proof.
  induction 1 as [|j js Hj _ IH]; simpl; [done|].
  by rewrite runJoin_not_ready.
Qed.

(** When no continuation becomes ready, a reply only settles its promise
    and retires the continuations that failed. *)
Lemma hostReply_none_ready p r s :
  Forall (λ j, ∀ l n, joinStatus (promises (settle p r s)) j ≠ Ready l n)
         (joins s) →
  hostReply p r s
  = setJoins (filter (λ j, isWaiting (promises (settle p r s)) j = true) (joins s))
      (settle p r s).
Proof.
  intros H. unfold hostReply, runJoins. rewrite joins_settle.
  by apply foldl_runJoin_not_ready.
Qed.

Lemma isWaiting_not_ready (ps : list (HostCall * Outcome)) j l n :
  isWaiting ps j = true → joinStatus ps j ≠ Ready l n.
Proof. unfold isWaiting. by destruct (joinStatus ps j). Qed.

(** A reply to a promise no continuation waits for changes neither the
    log nor the stored settings nor the continuations. *)
Lemma hostReply_unawaited p r s :
  joinsWait s → Forall (λ j, j.1 ≠ p ∧ j.2 ≠ p) (joins s) →
  hostReply p r s = settle p r s.
Proof.
  intros Hw Hp.
  assert (Hall : Forall (λ j, isWaiting (promises (settle p r s)) j = true) (joins s)).
  { unfold joinsWait in Hw. rewrite Forall_forall in Hw, Hp.
    apply Forall_forall. intros j Hj.
    destruct (Hw _ Hj) as (_ & _ & <-). destruct (Hp _ Hj) as [H1 H2].
    apply isWaiting_ext; by rewrite promises_settle_ne. }
  rewrite hostReply_none_ready.
  - rewrite filter_all by done. rewrite <- (joins_settle p r s).
    apply setJoins_same.
  - eapply Forall_impl; [exact Hall|]. intros j Hj l n.
    by apply isWaiting_not_ready.
Qed.

(** The first of the two replies to a registered pair settles its promise
    and does nothing else. *)
Lemma hostReply_first s a b p r (oa ob : Outcome) :
  joinsWait s → joinsApart s → awaits s a b oa ob → p = a ∨ p = b →
  isWaiting (promises (settle p r s)) (a, b) = true →
  hostReply p r s = settle p r s.
Proof.
  intros Hw Hap (Hab & _) Hp Hwait.
  assert (Hall : Forall (λ j, isWaiting (promises (settle p r s)) j = true) (joins s)).
  { apply Forall_forall. intros j Hj. destruct (decide (j = (a, b))) as [->|Hne].
    - done.
    - by apply (others_wait s a b). }
  rewrite hostReply_none_ready.
  - rewrite filter_all by done. rewrite <- (joins_settle p r s).
    apply setJoins_same.
  - eapply Forall_impl; [exact Hall|]. intros j Hj l n.
    by apply isWaiting_not_ready.
Qed.

(** The state after both answers to a registered pair, with nothing in
    between. *)
Lemma fetch_after s a b data cur s2 l h :
  reachable toINode s → awaits s a b Pending Pending →
  allocSettings data (heap s) = (l, h) →
  answered a b data cur s s2 →
  menuSettings s2 = Some l ∧ heap s2 = h ∧ container s2 = container s ∧
  log s2 = log s ++ [PreviewSetMenu (index (readMenus h l) cur);
                     ToolbarSetMenus (MenusOf l) cur].
Proof.
  intros Hr Ha Hal Hs2.
  pose proof (reachable_joinsWait _ Hr) as Hw.
  pose proof (reachable_joinsApart _ Hr) as Hap.
  pose proof (awaits_distinct _ _ _ _ _ Ha) as Hne.
  pose proof Ha as (Hin & Hpa & Hpb).
  assert (Hla : a < length (promises s)) by by apply lookup_lt_Some in Hpa.
  assert (Hlb : b < length (promises s)) by by apply lookup_lt_Some in Hpb.
  destruct Hs2 as [-> | ->].
  - set (sb := hostReply a (ReplySettings data) s).
    assert (Hsb : sb = settle a (ReplySettings data) s).
    { apply (hostReply_first s a b a _ Pending Pending); try done; [by left|].
      rewrite settle_get by done. unfold isWaiting, joinStatus. simpl.
      rewrite list_lookup_insert_eq by done.
      rewrite list_lookup_insert_ne by done. by rewrite Hpb. }
    assert (Hrb : reachable toINode sb)
      by apply (reachable_exec _ (HostReplies a (ReplySettings data)) _ Hr).
    rewrite settle_get, Hal in Hsb by done. simpl in Hsb.
    assert (Hpb' : promises sb !! b = Some (CallGetCurrentMenu, Pending)).
    { rewrite Hsb. simpl. by rewrite list_lookup_insert_ne. }
    destruct (hostReply_completes sb a b b (ReplyNumber cur) l cur) as [js ->].
    + by apply reachable_joinsWait.
    + by apply reachable_joinsApart.
    + rewrite Hsb. done.
    + by right.
    + rewrite settle_cur by done. unfold joinStatus. simpl.
      rewrite list_lookup_insert_ne by done.
      rewrite list_lookup_insert_eq by by apply lookup_lt_Some in Hpb'.
      rewrite Hsb. simpl. by rewrite list_lookup_insert_eq.
    + rewrite settle_cur by done. rewrite Hsb. simpl.
      repeat split; try done. by rewrite <- app_assoc.
  - set (sb := hostReply b (ReplyNumber cur) s).
    assert (Hsb : sb = settle b (ReplyNumber cur) s).
    { apply (hostReply_first s a b b _ Pending Pending); try done; [by right|].
      rewrite settle_cur by done. unfold isWaiting, joinStatus. simpl.
      rewrite list_lookup_insert_ne by done.
      rewrite list_lookup_insert_eq by done. by rewrite Hpa. }
    assert (Hrb : reachable toINode sb)
      by apply (reachable_exec _ (HostReplies b (ReplyNumber cur)) _ Hr).
    rewrite settle_cur in Hsb by done.
    assert (Hpa' : promises sb !! a = Some (CallGet, Pending)).
    { rewrite Hsb. simpl. by rewrite list_lookup_insert_ne. }
    assert (Hhb : heap sb = heap s) by by rewrite Hsb.
    destruct (hostReply_completes sb a b a (ReplySettings data) l cur) as [js ->].
    + by apply reachable_joinsWait.
    + by apply reachable_joinsApart.
    + rewrite Hsb. done.
    + by left.
    + rewrite settle_get, Hhb, Hal by done. unfold joinStatus. simpl.
      rewrite list_lookup_insert_eq by by apply lookup_lt_Some in Hpa'.
      rewrite list_lookup_insert_ne by done.
      rewrite Hsb. simpl. by rewrite list_lookup_insert_eq.
    + rewrite settle_get, Hhb, Hal by done. rewrite Hsb. simpl.
      repeat split; try done. by rewrite <- app_assoc.
Qed.

(** The state after [enterEditMode()] and both answers. *)
Lemma fetch_direct s data cur s2 l h :
  reachable toINode s → isInEditMode s = false →
  allocSettings data (heap s) = (l, h) →
  answered (length (promises s)) (S (length (promises s))) data cur
    (enterEditMode s) s2 →
  isInEditMode s2 = true ∧ menuSettings s2 = Some l ∧ heap s2 = h ∧
  log s2 = log (enterEditMode s)
           ++ [PreviewSetMenu (index (readMenus h l) cur);
               ToolbarSetMenus (MenusOf l) cur].
Proof.
  intros Hr Hf Hal Hs2.
  destruct (fetch_after (enterEditMode s) (length (promises s))
              (S (length (promises s))) data cur s2 l h)
    as (Hm & Hh & Hc & Hl); try done.
  - apply (reachable_exec _ CallEnterEditMode _ Hr).
  - by apply awaits_enter_new.
  - by rewrite heap_enterEditMode.
  - repeat split; try done.
    unfold isInEditMode, classes. rewrite Hc. apply isInEditMode_enterEditMode.
Qed.


(** ** The round trip *)

Lemma Forall2_alter_other (objs : gmap loc (@IMenu Node Meta)) ls data m x :
  m ∉ ls →
  Forall2 (λ k v, objs !! k = Some v) ls data →
  Forall2 (λ k v, alter (λ _, x) m objs !! k = Some v) ls data.
Proof.
  intros Hm H. induction H as [|k v ls data Hk _ IH]; constructor.
  - rewrite lookup_alter_ne; [done|]. intros ->. apply Hm. by left.
  - apply IH. intros Hin. apply Hm. by right.
Qed.

Lemma Forall2_alter_insert (objs : gmap loc (@IMenu Node Meta)) ls data i m x :
  Forall2 (λ k v, objs !! k = Some v) ls data → NoDup ls → ls !! i = Some m →
  Forall2 (λ k v, alter (λ _, x) m objs !! k = Some v) ls (<[i:=x]> data).
Proof.
  intros H. revert i. induction H as [|k v ls data Hk Hrest IH]; intros i Hnd Hi.
  - by rewrite lookup_nil in Hi.
  - apply NoDup_cons in Hnd as [Hk' Hnd]. destruct i as [|i]; simpl in *.
    + injection Hi as ->. constructor.
      * by rewrite lookup_alter_eq, Hk.
      * by apply Forall2_alter_other.
    + constructor.
      * rewrite lookup_alter_ne; [done|]. intros ->. apply Hk'.
        by eapply list_elem_of_lookup_2.
      * by apply IH.
Qed.

(** ** Leaving before the host has answered *)

(** X9.  Leaving edit mode before the host has answered sends nothing
    (when nothing was stored before), but the continuation stays
    registered: when the answers arrive the editor, although out of edit
    mode, stores the settings and hands them to the preview and the
    toolbar, and a later [hide()] neither sends nor drops them. *)
Theorem leave_before_reply s data cur s2 :
  reachable toINode s → isInEditMode s = false → menuSettings s = None →
  let pGet := length (promises s) in
  let s1 := leaveEditMode toINode (enterEditMode s) in
  answered pGet (S pGet) data cur s1 s2 →
  log s1 = log s ++ [SidebarSetVisibility false; HostGet pGet;
                     HostGetCurrentMenu (S pGet); Emit "enter-edit-mode";
                     Emit "leave-edit-mode"] ∧
  isInEditMode s2 = false ∧
  ∃ settings,
    menuSettings s2 = Some settings ∧
    snapshot (heap s2) settings = data ∧
    log s2 = log s1 ++ [PreviewSetMenu (index (readMenus (heap s2) settings) cur);
                        ToolbarSetMenus (MenusOf settings) cur] ∧
    log (hide toINode s2) = log s2 ∧
    menuSettings (hide toINode s2) = Some settings.
Proof.
  intros Hr Hf Hm pGet s1 Hs2.
  assert (Hr0 : reachable toINode (enterEditMode s))
    by apply (reachable_exec _ CallEnterEditMode _ Hr).
  assert (Hr1 : reachable toINode s1)
    by apply (reachable_exec _ CallLeaveEditMode _ Hr0).
  assert (Hl1 : log s1 = log s ++ [SidebarSetVisibility false; HostGet pGet;
                     HostGetCurrentMenu (S pGet); Emit "enter-edit-mode";
                     Emit "leave-edit-mode"]).
  { unfold s1. rewrite log_leaveEditMode by apply isInEditMode_enterEditMode.
    unfold leaveEffects. rewrite menuSettings_enterEditMode, Hm.
    rewrite log_enterEditMode by done. by rewrite <- app_assoc. }
  assert (Ha : awaits s1 pGet (S pGet) Pending Pending).
  { apply (awaits_exec CallLeaveEditMode); [by apply reachable_joinsWait|done|].
    by apply awaits_enter_new. }
  assert (Hh1 : heap s1 = heap s).
  { unfold s1. rewrite heap_leaveEditMode by apply isInEditMode_enterEditMode.
    by rewrite menuSettings_enterEditMode, Hm, heap_enterEditMode. }
  destruct (allocSettings data (heap s1)) as [l h] eqn:Hal.
  destruct (fetch_after s1 pGet (S pGet) data cur s2 l h)
    as (Hm2 & Hh2 & Hc2 & Hl2); try done.
  assert (Hf2 : isInEditMode s2 = false).
  { unfold isInEditMode, classes. rewrite Hc2. apply isInEditMode_leaveEditMode. }
  apply allocSettings_spec in Hal as (Hsnap & _).
  split; [done|]. split; [done|]. exists l. rewrite Hh2.
  repeat split; try done.
  - by rewrite log_hide, Hf2, app_nil_r.
  - unfold hide. rewrite leaveEditMode_noop; [done|].
    by rewrite flag_without_visible.
Qed.

(** X10.  Entering and leaving at once: the two host calls of the new
    fetch are made, and what goes back to the host is whatever was stored
    before, if anything (settings that arrived late, after an earlier
    leave), not an answer to the new fetch. *)
Theorem enter_then_leave_at_once s :
  isInEditMode s = false →
  let pGet := length (promises s) in
  let s1 := leaveEditMode toINode (enterEditMode s) in
  log s1 = log s ++ [SidebarSetVisibility false; HostGet pGet;
                     HostGetCurrentMenu (S pGet); Emit "enter-edit-mode"]
                 ++ match menuSettings s with
                    | Some settings =>
                        [HostSet (Some settings)
                           (snapshot (convertMenus toINode (heap s) settings)
                              settings)]
                    | None => []
                    end
                 ++ [Emit "leave-edit-mode"] ∧
  menuSettings s1 = None ∧
  isInEditMode s1 = false ∧
  joins s1 = joins s ++ [(pGet, S pGet)].
Proof.
  intros Hf pGet s1. unfold s1.
  rewrite log_leaveEditMode by apply isInEditMode_enterEditMode.
  unfold leaveEffects.
  rewrite menuSettings_enterEditMode, heap_enterEditMode.
  rewrite log_enterEditMode by done. rewrite <- app_assoc.
  split; [done|].
  split; [apply menuSettings_leaveEditMode, isInEditMode_enterEditMode|].
  split; [apply isInEditMode_leaveEditMode|].
  by rewrite joins_leaveEditMode, joins_enterEditMode, Hf.
Qed.


(** ** A fetch that fails *)

(** ** Selecting a menu in the toolbar *)

(** X13.  ['select-menu'] reads [this.menuSettings.menus] without a null
    check: it throws exactly when no settings are stored, and then
    changes nothing.  That is the case in a new editor, after
    [enterEditMode()] until the host has answered, and after every
    [leaveEditMode()] or [hide()] that left edit mode. *)
Theorem select_menu_needs_settings s i (c : HTMLElement) (tooltipElems : list nat) :
  (step toINode (ToolbarEmits (TbSelectMenu i)) s = None ↔ menuSettings s = None) ∧
  (menuSettings s = None → exec toINode (ToolbarEmits (TbSelectMenu i)) s = s) ∧
  step toINode (ToolbarEmits (TbSelectMenu i)) (@construct Node Meta c tooltipElems)
  = None ∧
  (menuSettings s = None →
     step toINode (ToolbarEmits (TbSelectMenu i)) (enterEditMode s) = None) ∧
  (isInEditMode s = true →
     step toINode (ToolbarEmits (TbSelectMenu i)) (leaveEditMode toINode s) = None ∧
     step toINode (ToolbarEmits (TbSelectMenu i)) (hide toINode s) = None).
Proof.
  split; [simpl; by destruct (menuSettings s)|].
  split; [intros H; unfold exec; simpl; by rewrite H|].
  split; [done|].
  split; [intros H; simpl; by rewrite menuSettings_enterEditMode, H|].
  intros Hf. simpl. rewrite menuSettings_leaveEditMode by done.
  split; [done|]. unfold hide.
  rewrite menuSettings_leaveEditMode; [done|]. by rewrite flag_without_visible.
Qed.


(** ** What is sent, ever *)

Lemma promises_exec_keeps o s q c (out : Outcome) :
  promises s !! q = Some (c, out) → out ≠ Pending →
  promises (exec toINode o s) !! q = Some (c, out).
Proof.
  intros Hq Hout.
  assert (Henter : promises (enterEditMode s) !! q = Some (c, out)).
  { rewrite promises_enterEditMode. destruct (isInEditMode s); [done|].
    by apply lookup_app_l_Some. }
  destruct o as [| | | |ev|p r|ed]; unfold exec; simpl; try done.
  - unfold hide. by rewrite promises_leaveEditMode.
  - by rewrite promises_leaveEditMode.
  - destruct ev; simpl; try done.
    + by rewrite promises_leaveEditMode.
    + by destruct (menuSettings s).
  - rewrite promises_hostReply. by apply settle_keeps_settled.
Qed.

Lemma HostSet_in_foldl_runJoin js s arg (payload : list (@IMenu Node Meta)) :
  HostSet arg payload ∈ log (foldl runJoin s js) → HostSet arg payload ∈ log s.
Proof.
  revert s. induction js as [|j js IH]; intros s; simpl; [done|].
  intros H%IH. unfold runJoin in H.
  destruct (joinStatus _ _); try done. simpl in H.
  rewrite !elem_of_app, !list_elem_of_singleton in H.
  by destruct H as [[H|H]|H].
Qed.

(** X14.  Everything the editor ever sends to the host is an object the
    host delivered: in the log of a reachable state the argument of every
    [set] call is an object with which a [get()] call of the editor was
    answered. *)
Theorem sets_send_fetched_objects s :
  reachable toINode s →
  ∀ arg payload, HostSet arg payload ∈ log s →
    ∃ settings p,
      arg = Some settings ∧
      promises s !! p = Some (CallGet, FulfilledSettings settings) ∧
      HostGet p ∈ log s.
Proof.
  induction 1 as [c t|o s Hr IH]; intros arg payload Hin.
  - simpl in Hin. apply list_elem_of_fmap in Hin as (e & He & _). done.
  - assert (Hold : HostSet arg payload ∈ log s →
              ∃ settings p, arg = Some settings ∧
                promises (exec toINode o s) !! p
                = Some (CallGet, FulfilledSettings settings) ∧
                HostGet p ∈ log (exec toINode o s)).
    { intros H. destruct (IH _ _ H) as (l & p & -> & Hp & Hg).
      exists l, p. split; [done|]. split.
      - by apply promises_exec_keeps.
      - eapply elem_of_prefix; [exact Hg|apply log_prefix_exec]. }
    assert (Hcases : HostSet arg payload ∈ log s ∨
                     HostSet arg payload ∈ directEffects toINode o s).
    { destruct o as [| | | |ev|p r|ed];
        try (rewrite log_exec_direct in Hin by done;
             by apply elem_of_app in Hin).
      left. unfold exec in Hin. simpl in Hin. unfold hostReply, runJoins in Hin.
      apply HostSet_in_foldl_runJoin in Hin. simpl in Hin.
      by rewrite log_settle in Hin. }
    destruct Hcases as [Hyes|Hnew]; [by apply Hold|].
    assert (Hleave : ∀ s', HostSet arg payload ∈ leaveEffects toINode s' →
                           arg = menuSettings s' ∧ is_Some (menuSettings s')).
    { intros s'. unfold leaveEffects. destruct (menuSettings s'); simpl.
      - rewrite elem_of_cons, list_elem_of_singleton.
        intros [[= -> _]|[=]]. eauto.
      - by rewrite list_elem_of_singleton. }
    assert (Harg : arg = menuSettings s ∧ is_Some (menuSettings s)).
    { destruct o as [| | | |ev|p r|ed]; simpl in Hnew;
        try (by apply elem_of_nil in Hnew).
      - destruct (isInEditMode s); [by apply Hleave|by apply elem_of_nil in Hnew].
      - destruct (isInEditMode s); [by apply elem_of_nil in Hnew|].
        rewrite !elem_of_cons, elem_of_nil in Hnew.
        by repeat (destruct Hnew as [Hnew|Hnew]; [discriminate Hnew|]).
      - destruct (isInEditMode s); [by apply Hleave|by apply elem_of_nil in Hnew].
      - destruct ev; simpl in Hnew.
        + destruct (isInEditMode s); [by apply elem_of_nil in Hnew|].
          rewrite !elem_of_cons, elem_of_nil in Hnew.
        by repeat (destruct Hnew as [Hnew|Hnew]; [discriminate Hnew|]).
        + destruct (isInEditMode s); [by apply Hleave|by apply elem_of_nil in Hnew].
        + rewrite !elem_of_cons, elem_of_nil in Hnew.
        by repeat (destruct Hnew as [Hnew|Hnew]; [discriminate Hnew|]).
        + rewrite !elem_of_cons, elem_of_nil in Hnew.
        by repeat (destruct Hnew as [Hnew|Hnew]; [discriminate Hnew|]).
        + destruct (menuSettings s); [|by apply elem_of_nil in Hnew].
          rewrite !elem_of_cons, elem_of_nil in Hnew.
        by repeat (destruct Hnew as [Hnew|Hnew]; [discriminate Hnew|]). }
    destruct Harg as [-> [l Hl]].
    destruct (reachable_settingsFromHost s Hr l Hl) as (p & Hp & Hg).
    exists l, p. split; [done|]. split.
    + by apply promises_exec_keeps.
    + eapply elem_of_prefix; [exact Hg|apply log_prefix_exec].
Qed.

(** ** A container that already carries the class *)

(** X15.  The constructor does not touch the class list, so an editor
    built on a container that already carries ['edit-mode'] is in edit
    mode from the start, with nothing fetched: [enterEditMode()] does
    nothing (no host call is made), and the first [leaveEditMode()] only
    removes the class and emits the event, without a [set] call. *)
Theorem premarked_container (c : HTMLElement) (tooltipElems : list nat) :
  let s0 := @construct Node Meta c tooltipElems in
  isInEditMode s0 = DOMTokenList.contains (classList c) "edit-mode" ∧
  (DOMTokenList.contains (classList c) "edit-mode" = true →
     enterEditMode s0 = s0 ∧
     log (leaveEditMode toINode s0) = log s0 ++ [Emit "leave-edit-mode"] ∧
     promises (leaveEditMode toINode s0) = [] ∧
     isInEditMode (leaveEditMode toINode s0) = false).
Proof.
  intros s0. split; [done|]. intros H.
  assert (Hf : isInEditMode s0 = true) by done.
  split; [by apply enterEditMode_noop|].
  split; [by rewrite log_leaveEditMode|].
  split; [by rewrite promises_leaveEditMode|].
  apply isInEditMode_leaveEditMode.
Qed.

(** ** The menu objects after leaving *)

Lemma timesListed_absent menu ms : menu ∉ ms → timesListed menu ms = 0.
Proof.
  intros H. unfold timesListed.
  destruct (filter (λ x, x = menu) ms) as [|y k] eqn:E; [done|].
  assert (Hy : y ∈ filter (λ x, x = menu) ms) by (rewrite E; by left).
  apply list_elem_of_filter in Hy as [-> Hy]. done.
Qed.

(** ** The stored reference *)

Lemma settingsObjs_allocMenus (ms : list (@IMenu Node Meta)) st :
  settingsObjs (allocMenus ms st).2 = settingsObjs st.
Proof.
  destruct (allocMenus ms st) as [ls st'] eqn:E.
  by apply allocMenus_spec in E as (H & _).
Qed.

Lemma live_allocSettings (data : list (@IMenu Node Meta)) st l :
  is_Some (settingsObjs st !! l) →
  is_Some (settingsObjs (allocSettings data st).2 !! l).
Proof.
  intros H. unfold allocSettings.
  pose proof (settingsObjs_allocMenus data st) as Hs.
  destruct (allocMenus data st) as [ls st1]. simpl in *.
  destruct (decide (nextLoc st1 = l)) as [->|Hne].
  - rewrite lookup_insert_eq. by eexists.
  - rewrite lookup_insert_ne by done. by rewrite Hs.
Qed.

Lemma live_new_allocSettings (data : list (@IMenu Node Meta)) st :
  is_Some (settingsObjs (allocSettings data st).2 !! (allocSettings data st).1).
Proof.
  unfold allocSettings. destruct (allocMenus data st) as [ls st1]. simpl.
  rewrite lookup_insert_eq. by eexists.
Qed.

Lemma live_settle p r s l :
  is_Some (settingsObjs (heap s) !! l) →
  is_Some (settingsObjs (heap (settle p r s)) !! l).
Proof.
  intros H. unfold settle. destruct (promises s !! p) as [[c []]|]; try done.
  destruct c, r; try done.
  pose proof (live_allocSettings data (heap s) l H) as H'.
  by destruct (allocSettings data (heap s)).
Qed.

Lemma live_exec o s l :
  is_Some (settingsObjs (heap s) !! l) →
  is_Some (settingsObjs (heap (exec toINode o s)) !! l).
Proof.
  intros H.
  assert (Hleave : ∀ s', settingsObjs (heap (leaveEditMode toINode s'))
                         = settingsObjs (heap s')).
  { intros s'. unfold leaveEditMode. destruct (isInEditMode s'); simpl; [|done].
    destruct (menuSettings s'); simpl; [|done].
    apply settingsObjs_foldl_convertAt. }
  destruct o as [| | | |ev|p r|ed]; unfold exec; simpl; try done.
  - unfold hide. by rewrite Hleave.
  - by rewrite heap_enterEditMode.
  - by rewrite Hleave.
  - destruct ev; simpl; try done.
    + by rewrite heap_enterEditMode.
    + by rewrite Hleave.
    + by destruct (menuSettings s).
  - rewrite heap_hostReply. by apply live_settle.
  - destruct ed; simpl; try done. by apply is_Some_alter.
Qed.

Lemma fulfilled_live_settle p r s :
  (∀ q c l, promises s !! q = Some (c, FulfilledSettings l) →
            is_Some (settingsObjs (heap s) !! l)) →
  ∀ q c l, promises (settle p r s) !! q = Some (c, FulfilledSettings l) →
           is_Some (settingsObjs (heap (settle p r s)) !! l).
Proof.
  intros H q c l Hq. destruct (decide (q = p)) as [->|Hne].
  2:{ rewrite promises_settle_ne in Hq by done.
      apply live_settle. by eapply H. }
  revert Hq. unfold settle.
  destruct (promises s !! p) as [[c0 o0]|] eqn:E; [|by rewrite E].
  assert (Hlt : p < length (promises s)) by by apply lookup_lt_Some in E.
  destruct o0; try (rewrite E; intros [= <- <-]; by eapply H).
  - destruct c0, r; try (rewrite E; by intros [=]); simpl.
    + pose proof (live_new_allocSettings data (heap s)) as Hnew.
      destruct (allocSettings data (heap s)) as [l0 h0]. simpl in *.
      rewrite list_lookup_insert_eq by done. by intros [= <- <-].
    + rewrite list_lookup_insert_eq by done. by intros [=].
    + rewrite list_lookup_insert_eq by done. by intros [=].
    + rewrite list_lookup_insert_eq by done. by intros [=].
Qed.

Lemma reachable_fulfilled_live s :
  reachable toINode s →
  ∀ q c l, promises s !! q = Some (c, FulfilledSettings l) →
           is_Some (settingsObjs (heap s) !! l).
Proof.
  induction 1 as [c0 t|o s Hr IH]; intros q c l Hq.
  - simpl in Hq. by rewrite lookup_nil in Hq.
  - assert (Hold : promises s !! q = Some (c, FulfilledSettings l) →
                   is_Some (settingsObjs (heap (exec toINode o s)) !! l)).
    { intros H. apply live_exec. by eapply IH. }
    assert (Henter : promises (enterEditMode s) !! q = Some (c, FulfilledSettings l) →
                     promises s !! q = Some (c, FulfilledSettings l)).
    { rewrite promises_enterEditMode. destruct (isInEditMode s); [done|].
      intros [H|[_ H]]%lookup_app_Some; [done|].
      destruct (q - length (promises s)) as [|[|k]]; by simplify_eq/=. }
    destruct o as [| | | |ev|p r|ed]; unfold exec in *; simpl in *.
    + by apply Hold.
    + unfold hide in Hq. rewrite promises_leaveEditMode in Hq. by apply Hold.
    + by apply Hold, Henter.
    + rewrite promises_leaveEditMode in Hq. by apply Hold.
    + destruct ev; simpl in *.
      * by apply Hold, Henter.
      * rewrite promises_leaveEditMode in Hq. by apply Hold.
      * by apply Hold.
      * by apply Hold.
      * destruct (menuSettings s); by apply Hold.
    + rewrite promises_hostReply in Hq. rewrite heap_hostReply.
      by eapply fulfilled_live_settle.
    + by apply Hold.
Qed.

(** X17.  Whenever settings are stored, they are a live settings object:
    the [menus] array that [leaveEditMode()] iterates over and that
    ['select-menu'] indexes exists, whatever the panels did to the heap
    in between. *)
Theorem stored_settings_are_live s settings :
  reachable toINode s → menuSettings s = Some settings →
  ∃ obj, settingsObjs (heap s) !! settings = Some obj ∧
         readMenus (heap s) settings = menus obj.
Proof.
  intros Hr Hm.
  destruct (reachable_settingsFromHost s Hr settings Hm) as (p & Hp & _).
  destruct (reachable_fulfilled_live s Hr p CallGet settings Hp) as [obj Hobj].
  exists obj. split; [done|]. unfold readMenus. by rewrite Hobj.
Qed.


(** * What decides the behaviour of the editor *)

Lemma isVisible_exec o s :
  isVisible (exec toINode o s) = visibleAfter o (isVisible s).
Proof.
  assert (Henter : ∀ s', isVisible (enterEditMode s') = isVisible s').
  { intros s'. unfold isVisible. rewrite classes_enterEditMode.
    by apply TokenFacts.contains_add_ne. }
  assert (Hleave : ∀ s', isVisible (leaveEditMode toINode s') = isVisible s').
  { intros s'. unfold isVisible. rewrite classes_leaveEditMode.
    by apply TokenFacts.contains_remove_ne. }
  destruct o as [| | | |ev|p r|ed]; unfold exec; simpl; try done.
  - apply TokenFacts.contains_add.
  - apply isVisible_hide.
  - destruct ev; simpl; try done. by destruct (menuSettings s).
  - unfold isVisible, classes. by rewrite container_hostReply.
Qed.

Lemma newEffects_direct o s :
  (∀ p r, o ≠ HostReplies p r) →
  newEffects toINode o s = directEffects toINode o s.
Proof.
  intros Ho. unfold newEffects. rewrite log_exec_direct by done.
  apply drop_app_length.
Qed.

Lemma kinds_leaveEffects s :
  kindOf <$> leaveEffects toINode s = (if stored s then [10] else []) ++ [11].
Proof. unfold leaveEffects, stored. by destruct (menuSettings s). Qed.

Lemma kinds_directEffects o s s' :
  isInEditMode s = isInEditMode s' → stored s = stored s' →
  kindOf <$> directEffects toINode o s = kindOf <$> directEffects toINode o s'.
Proof.
  intros Hf Hs.
  assert (Hl : kindOf <$> leaveEffects toINode s
               = kindOf <$> leaveEffects toINode s')
    by by rewrite !kinds_leaveEffects, Hs.
  destruct o as [| | | |ev|p r|ed]; simpl; try done.
  - rewrite <- Hf. by destruct (isInEditMode s).
  - rewrite <- Hf. by destruct (isInEditMode s).
  - rewrite <- Hf. by destruct (isInEditMode s).
  - destruct ev; simpl; try done.
    + rewrite <- Hf. by destruct (isInEditMode s).
    + rewrite <- Hf. by destruct (isInEditMode s).
    + unfold stored in Hs. by destruct (menuSettings s), (menuSettings s').
Qed.

Lemma throws_iff o s :
  step toINode o s = None
  ↔ (∃ i, o = ToolbarEmits (TbSelectMenu i)) ∧ stored s = false.
Proof.
  assert (Hno : ∀ (x : @State Node Meta) o',
            (∀ i, o' ≠ ToolbarEmits (TbSelectMenu i)) →
            Some x = None ↔ (∃ i, o' = ToolbarEmits (TbSelectMenu i)) ∧ stored s = false).
  { intros x o' Ho'. split; [intros [=]|]. intros [[i Hi] _]. by destruct (Ho' i). }
  destruct o as [| | | |ev|p r|ed]; simpl; try (by apply Hno).
  destruct ev; simpl; try (by apply Hno).
  unfold stored. destruct (menuSettings s); split; try done.
  - by intros [_ ?].
  - intros _. split; [by eexists|done].
Qed.

Lemma stored_leaveEditMode s :
  stored (leaveEditMode toINode s) = negb (isInEditMode s) && stored s.
Proof.
  unfold stored. destruct (isInEditMode s) eqn:E.
  - by rewrite menuSettings_leaveEditMode.
  - by rewrite leaveEditMode_noop.
Qed.

Lemma stored_exec o s s' :
  (∀ p r, o ≠ HostReplies p r) →
  isInEditMode s = isInEditMode s' → stored s = stored s' →
  stored (exec toINode o s) = stored (exec toINode o s').
Proof.
  intros Ho Hf Hs.
  assert (Hleave : stored (leaveEditMode toINode s)
                   = stored (leaveEditMode toINode s'))
    by by rewrite !stored_leaveEditMode, Hf, Hs.
  assert (Henter : stored (enterEditMode s) = stored (enterEditMode s'))
    by (unfold stored; by rewrite !menuSettings_enterEditMode).
  destruct o as [| | | |ev|p r|ed]; unfold exec; simpl; try done.
  - unfold hide. rewrite !stored_leaveEditMode, !flag_without_visible, Hf.
    f_equal. exact Hs.
  - destruct ev; simpl; try done.
    unfold stored in *.
    destruct (menuSettings s) eqn:E, (menuSettings s') eqn:E'; simpl;
      rewrite ?E, ?E'; done.
  - by destruct (Ho p r).
Qed.

(** C3 (amended).  The edit-mode flag is membership of ['edit-mode'] in
    the container's class list: [isInEditMode()] reads it,
    [enterEditMode()] sets it and [leaveEditMode()] clears it.  Under
    every input the new flag is a function of the input and the old flag,
    the visibility (the ['visible'] class) is a function of the input and
    the old visibility, and no other class is touched.  The flag does not
    decide the behaviour alone: together with the flag, whether settings
    are stored decides what every method call and toolbar event does
    (whether the listener throws, which calls are made, whether settings
    are stored afterwards), and a reply of the host changes nothing
    unless a continuation waits for the answered promise. *)
Theorem edit_mode_flag s :
  (isInEditMode s = true ↔ "edit-mode" ∈ classList (container s)) ∧
  isInEditMode (enterEditMode s) = true ∧
  isInEditMode (leaveEditMode toINode s) = false ∧
  (∀ o, isInEditMode (exec toINode o s) = flagAfter o (isInEditMode s)) ∧
  (∀ o, isVisible (exec toINode o s) = visibleAfter o (isVisible s)) ∧
  (∀ o t, t ≠ "edit-mode" → t ≠ "visible" →
          DOMTokenList.contains (classes (exec toINode o s)) t
          = DOMTokenList.contains (classes s) t) ∧
  (∀ s' o,
     isInEditMode s = isInEditMode s' → stored s = stored s' →
     (∀ p r, o ≠ HostReplies p r) →
     (step toINode o s = None ↔ step toINode o s' = None) ∧
     kindOf <$> newEffects toINode o s = kindOf <$> newEffects toINode o s' ∧
     isInEditMode (exec toINode o s) = isInEditMode (exec toINode o s') ∧
     stored (exec toINode o s) = stored (exec toINode o s')) ∧
  (∀ p r,
     reachable toINode s → Forall (λ j, j.1 ≠ p ∧ j.2 ≠ p) (joins s) →
     log (hostReply p r s) = log s ∧
     menuSettings (hostReply p r s) = menuSettings s ∧
     container (hostReply p r s) = container s ∧
     joins (hostReply p r s) = joins s).
Proof.
  split; [apply TokenFacts.contains_true|].
  split; [apply isInEditMode_enterEditMode|].
  split; [apply isInEditMode_leaveEditMode|].
  split; [intros o; apply isInEditMode_exec|].
  split; [intros o; apply isVisible_exec|].
  split; [intros o t; apply classes_exec_other|].
  split.
  - intros s' o Hf Hs Ho. repeat split.
    + intros [Hsel Hst]%throws_iff. apply throws_iff. by rewrite <- Hs.
    + intros [Hsel Hst]%throws_iff. apply throws_iff. by rewrite Hs.
    + rewrite !newEffects_direct by done. by apply kinds_directEffects.
    + by rewrite !isInEditMode_exec, Hf.
    + by apply stored_exec.
  - intros p r Hr Hp. rewrite hostReply_unawaited.
    + by rewrite log_settle, menuSettings_settle, container_settle, joins_settle.
    + by apply reachable_joinsWait.
    + done.
Qed.


(** * The round trip, stated on the heap *)

Lemma allocSettings_obj (data : list (@IMenu Node Meta)) st l st' :
  allocSettings data st = (l, st') →
  ∃ obj, settingsObjs st' !! l = Some obj ∧ readMenus st' l = menus obj.
Proof.
  unfold allocSettings. destruct (allocMenus data st) as [ls st1].
  intros [= <- <-]. eexists. unfold readMenus. simpl.
  rewrite lookup_insert_eq. done.
Qed.

Lemma readMenus_obj (st : @Store Node Meta) l obj :
  settingsObjs st !! l = Some obj → readMenus st l = menus obj.
Proof. intros H. unfold readMenus. by rewrite H. Qed.

Lemma index_nonneg {A} (arr : list A) (i : Z) :
  (0 ≤ i)%Z → index arr i = arr !! Z.to_nat i.
Proof. intros H. unfold index. by rewrite (proj2 (Z.leb_le 0 i)). Qed.

Lemma index_neg {A} (arr : list A) (i : Z) : (i < 0)%Z → index arr i = None.
Proof. intros H. unfold index. by rewrite (proj2 (Z.leb_gt 0 i)). Qed.

Lemma live_run ops s l :
  is_Some (settingsObjs (heap s) !! l) →
  is_Some (settingsObjs (heap (run toINode ops s)) !! l).
Proof.
  revert s. induction ops as [|o ops IH]; intros s H; simpl; [done|].
  by apply IH, live_exec.
Qed.

Lemma heap_settle_number p n s : heap (settle p (ReplyNumber n) s) = heap s.
Proof.
  unfold settle. destruct (promises s !! p) as [[c []]|]; try done.
  by destruct c.
Qed.

Lemma iter_convertMenu n (v : @IMenu Node Meta) :
  Nat.iter n (convertMenu toINode) v
  = {| nodes := Nat.iter n toINode (nodes v); other := other v |}.
Proof.
  induction n as [|n IH]; simpl; [by destruct v|]. by rewrite IH.
Qed.

(** C2.  A call of [leaveEditMode()] in edit mode with settings stored
    sends exactly one thing to the host: a [set] call whose argument is
    the stored object itself, an object the host delivered in reply to a
    [get()] of the editor.  The call is the only host call made and it is
    followed by the ['leave-edit-mode'] event.  Its payload is read off
    the heap: for every menu object listed in the stored object's [menus]
    array, in order, that object with [toINode] applied to its [nodes]
    (once per listing; once each when the listed objects are distinct)
    and its other fields unchanged.  Afterwards no settings are stored. *)
Theorem leaveEditMode_sends_back s settings :
  reachable toINode s → isInEditMode s = true → menuSettings s = Some settings →
  let s' := leaveEditMode toINode s in
  let ms := readMenus (heap s) settings in
  let sent := snapshot (heap s') settings in
  (∃ p, promises s !! p = Some (CallGet, FulfilledSettings settings) ∧
        HostGet p ∈ log s) ∧
  log s' = log s ++ [HostSet (Some settings) sent; Emit "leave-edit-mode"] ∧
  countIn isHostCall (log s') = S (countIn isHostCall (log s)) ∧
  readMenus (heap s') settings = ms ∧
  sent = omap (λ m, Nat.iter (timesListed m ms) (convertMenu toINode)
                    <$> menuObjs (heap s) !! m) ms ∧
  (NoDup ms → sent = convertMenu toINode <$> snapshot (heap s) settings) ∧
  menuSettings s' = None ∧
  ∃ obj,
    settingsObjs (heap s) !! settings = Some obj ∧
    sent = omap (λ m, (λ v, {| nodes := Nat.iter
                                          (length (filter (λ x, x = m) (menus obj)))
                                          toINode (nodes v);
                               other := other v |})
                      <$> menuObjs (heap s) !! m) (menus obj) ∧
    (NoDup (menus obj) →
       sent = omap (λ m, (λ v, {| nodes := toINode (nodes v); other := other v |})
                         <$> menuObjs (heap s) !! m) (menus obj)).
Proof.
  intros Hr Hf Hm s' ms sent.
  assert (Hh : heap s' = convertMenus toINode (heap s) settings).
  { subst s'. by rewrite heap_leaveEditMode, Hm. }
  assert (Hl : log s' = log s ++ [HostSet (Some settings) sent; Emit "leave-edit-mode"]).
  { subst s' sent. rewrite Hh, log_leaveEditMode by done.
    unfold leaveEffects. by rewrite Hm. }
  pose proof (reachable_settingsFromHost s Hr settings Hm) as (p & Hp & Hg).
  destruct (reachable_fulfilled_live s Hr p CallGet settings Hp) as [obj Hobj].
  assert (Hms : ms = menus obj) by by apply readMenus_obj.
  assert (Hsent : sent = omap (λ m, Nat.iter (timesListed m ms) (convertMenu toINode)
                                    <$> menuObjs (heap s) !! m) ms).
  { subst sent ms. rewrite Hh. apply snapshot_convertMenus. }
  split; [by exists p|].
  split; [done|].
  split; [rewrite Hl, countIn_app, !countIn_cons, countIn_nil; simpl; lia|].
  split; [subst ms; rewrite Hh; apply readMenus_convertMenus|].
  split; [done|].
  split; [subst sent ms; rewrite Hh; apply snapshot_convertMenus_NoDup|].
  split; [by apply menuSettings_leaveEditMode|].
  exists obj. split; [done|]. rewrite <- Hms. split.
  - rewrite Hsent. apply omap_ext_in. intros m _.
    destruct (menuObjs (heap s) !! m) as [v|]; [|done]. simpl.
    by rewrite iter_convertMenu.
  - intros Hnd. rewrite Hsent. apply omap_ext_in. intros m Hin.
    rewrite timesListed_NoDup by done.
    by destruct (menuObjs (heap s) !! m).
Qed.


(** C1.  A call of [enterEditMode()] outside edit mode makes the two host
    calls [get()] and [getCurrentMenu()] and registers one continuation
    on both.  Whatever else happens before and between the two answers of
    the host, and in whichever order they come, with the second answer
    the editor's [menuSettings] becomes the object that was built from
    the retrieved settings: a new object whose [menus] array lists, in
    order, menu objects holding the retrieved menus.  The preview is
    given the element of that object's [menus] array at position
    [currentMenu] as it is then ([undefined] for a negative position or
    one past the end; the object holding the retrieved menu at that
    position when the settings are the second answer), the toolbar is
    given [settings.menus] and [currentMenu], and nothing else is
    called. *)
Theorem enterEditMode_fetches s :
  reachable toINode s → isInEditMode s = false →
  let pGet := length (promises s) in
  let pCur := S pGet in
  let s1 := enterEditMode s in
  log s1 = log s ++ [SidebarSetVisibility false; HostGet pGet;
                     HostGetCurrentMenu pCur; Emit "enter-edit-mode"] ∧
  promises s1 = promises s ++ [(CallGet, Pending); (CallGetCurrentMenu, Pending)] ∧
  joins s1 = joins s ++ [(pGet, pCur)] ∧
  (∀ before between data cur,
     Forall (quiet pGet pCur) before → Forall (quiet pGet pCur) between →
     let sa := run toINode before s1 in
     let sb := hostReply pGet (ReplySettings data) sa in
     let sc := run toINode between sb in
     let s2 := hostReply pCur (ReplyNumber cur) sc in
     ∃ settings obj picked,
       settingsObjs (heap sa) !! settings = None ∧
       settingsObjs (heap sb) !! settings = Some obj ∧
       Forall2 (λ m v, menuObjs (heap sb) !! m = Some v) (menus obj) data ∧
       snapshot (heap sb) settings = data ∧
       menuSettings s2 = Some settings ∧
       log s2 = log sc ++ [PreviewSetMenu picked;
                           ToolbarSetMenus (MenusOf settings) cur] ∧
       picked = index (readMenus (heap s2) settings) cur ∧
       ∃ obj2,
         settingsObjs (heap s2) !! settings = Some obj2 ∧
         ((0 ≤ cur)%Z → picked = menus obj2 !! Z.to_nat cur) ∧
         ((cur < 0)%Z → picked = None)) ∧
  (∀ before between data cur,
     Forall (quiet pGet pCur) before → Forall (quiet pGet pCur) between →
     let sa := run toINode before s1 in
     let sb := hostReply pCur (ReplyNumber cur) sa in
     let sc := run toINode between sb in
     let s2 := hostReply pGet (ReplySettings data) sc in
     ∃ settings obj picked,
       settingsObjs (heap sc) !! settings = None ∧
       settingsObjs (heap s2) !! settings = Some obj ∧
       Forall2 (λ m v, menuObjs (heap s2) !! m = Some v) (menus obj) data ∧
       snapshot (heap s2) settings = data ∧
       menuSettings s2 = Some settings ∧
       index (readMenus (heap s2) settings) cur ≫= (λ m, menuObjs (heap s2) !! m)
       = index data cur ∧
       log s2 = log sc ++ [PreviewSetMenu picked;
                           ToolbarSetMenus (MenusOf settings) cur] ∧
       picked = index (readMenus (heap s2) settings) cur ∧
       ((0 ≤ cur)%Z → picked = menus obj !! Z.to_nat cur) ∧
       (∀ v, (0 ≤ cur)%Z → data !! Z.to_nat cur = Some v →
             ∃ m, picked = Some m ∧ menuObjs (heap s2) !! m = Some v) ∧
       ((cur < 0 ∨ Z.of_nat (length data) ≤ cur)%Z → picked = None)).
Proof.
  intros Hr Hf pGet pCur s1.
  split; [by apply log_enterEditMode|].
  split; [subst s1; by rewrite promises_enterEditMode, Hf|].
  split; [subst s1; by rewrite joins_enterEditMode, Hf|].
  assert (Hr1 : reachable toINode s1) by apply (reachable_exec _ CallEnterEditMode _ Hr).
  assert (H1 : awaits s1 pGet pCur Pending Pending) by by apply awaits_enter_new.
  split.
  - intros before between data cur Hq1 Hq2 sa sb sc s2.
    assert (Hra : reachable toINode sa) by by apply reachable_run.
    assert (Ha : awaits sa pGet pCur Pending Pending) by by apply awaits_run.
    destruct (allocSettings data (heap sa)) as [l h] eqn:Hal.
    destruct (awaits_reply_get sa pGet pCur data Pending) as [Hb Hhb];
      [by apply reachable_joinsWait|done|done|].
    rewrite Hal in Hb, Hhb. simpl in Hb, Hhb. fold sb in Hb, Hhb.
    assert (Hrb : reachable toINode sb)
      by apply (reachable_exec _ (HostReplies pGet (ReplySettings data)) _ Hra).
    assert (Hrc : reachable toINode sc) by by apply reachable_run.
    assert (Hc : awaits sc pGet pCur (FulfilledSettings l) Pending)
      by by apply awaits_run.
    destruct (hostReply_completes sc pGet pCur pCur (ReplyNumber cur) l cur)
      as [js Hs2].
    { by apply reachable_joinsWait. }
    { by apply reachable_joinsApart. }
    { by destruct Hc. }
    { by right. }
    { destruct Hc as (_ & Hc1 & Hc2). rewrite settle_cur by done.
      pose proof (awaits_distinct _ _ _ _ _ Ha) as Hne.
      unfold joinStatus. simpl.
      rewrite list_lookup_insert_ne by done.
      rewrite list_lookup_insert_eq by by apply lookup_lt_Some in Hc2.
      by rewrite Hc1. }
    fold s2 in Hs2.
    destruct (allocSettings_obj _ _ _ _ Hal) as (obj & Hobj & Hread).
    apply allocSettings_spec in Hal as (Hsnap & _ & Hall & Hfresh).
    assert (Hh2 : heap s2 = heap sc).
    { rewrite Hs2. simpl. apply heap_settle_number. }
    assert (Hlive : is_Some (settingsObjs (heap s2) !! l)).
    { rewrite Hh2. apply live_run. rewrite Hhb, Hobj. by eexists. }
    destruct Hlive as [obj2 Hobj2].
    exists l, obj, (index (readMenus (heap s2) l) cur).
    split; [by apply Hfresh, reachable_storeBelow|].
    split; [by rewrite Hhb|].
    split; [rewrite Hhb, <- Hread; exact Hall|].
    split; [by rewrite Hhb|].
    split; [by rewrite Hs2|].
    split.
    { rewrite Hh2. rewrite Hs2. simpl.
      rewrite heap_settle_number, log_settle. by rewrite <- app_assoc. }
    split; [done|].
    exists obj2. split; [done|]. rewrite (readMenus_obj _ _ _ Hobj2).
    split; [apply index_nonneg|apply index_neg].
  - intros before between data cur Hq1 Hq2 sa sb sc s2.
    assert (Hra : reachable toINode sa) by by apply reachable_run.
    assert (Ha : awaits sa pGet pCur Pending Pending) by by apply awaits_run.
    destruct (awaits_reply_cur sa pGet pCur cur Pending) as [Hb _];
      [by apply reachable_joinsWait|done|done|].
    fold sb in Hb.
    assert (Hrb : reachable toINode sb)
      by apply (reachable_exec _ (HostReplies pCur (ReplyNumber cur)) _ Hra).
    assert (Hrc : reachable toINode sc) by by apply reachable_run.
    assert (Hc : awaits sc pGet pCur Pending (FulfilledNumber cur))
      by by apply awaits_run.
    destruct (allocSettings data (heap sc)) as [l h] eqn:Hal.
    destruct (hostReply_completes sc pGet pCur pGet (ReplySettings data) l cur)
      as [js Hs2].
    { by apply reachable_joinsWait. }
    { by apply reachable_joinsApart. }
    { by destruct Hc. }
    { by left. }
    { destruct Hc as (_ & Hc1 & Hc2). rewrite settle_get, Hal by done.
      pose proof (awaits_distinct _ _ _ _ _ Ha) as Hne.
      unfold joinStatus. simpl.
      rewrite list_lookup_insert_eq by by apply lookup_lt_Some in Hc1.
      rewrite list_lookup_insert_ne by done.
      by rewrite Hc2. }
    fold s2 in Hs2. destruct Hc as (_ & Hc1 & _).
    rewrite settle_get, Hal in Hs2 by done. simpl in Hs2.
    destruct (allocSettings_obj _ _ _ _ Hal) as (obj & Hobj & Hread).
    apply allocSettings_spec in Hal as (Hsnap & _ & Hall & Hfresh).
    assert (Hh2 : heap s2 = h) by by rewrite Hs2.
    pose proof (Forall2_length _ _ _ Hall) as Hlen.
    exists l, obj, (index (readMenus h l) cur). rewrite Hh2.
    split; [by apply Hfresh, reachable_storeBelow|].
    split; [done|].
    split; [rewrite <- Hread; exact Hall|].
    split; [done|].
    split; [by rewrite Hs2|].
    split; [by apply index_bind|].
    split; [rewrite Hs2; simpl; by rewrite <- app_assoc|].
    split; [done|].
    rewrite Hread.
    split; [apply index_nonneg|].
    split.
    + intros v Hcur Hv. rewrite index_nonneg by done.
      rewrite Hread in Hall.
      destruct (Forall2_lookup_r _ _ _ _ _ Hall Hv) as (m & Hm & Hmv).
      by exists m.
    + intros [Hneg|Hbig]; [by apply index_neg|].
      rewrite index_nonneg by lia. apply lookup_ge_None.
      rewrite <- Hread, Hlen. lia.
Qed.


(** * Further properties, stated on the heap *)

(** X7.  Fetch, then leave with no edit in between: what the host gets
    back in the single [set] call is the value it delivered, with
    [toINode] applied to the [nodes] of every menu and every other field
    unchanged. *)
Theorem round_trip_without_edits s data cur s2 :
  reachable toINode s → isInEditMode s = false →
  answered (length (promises s)) (S (length (promises s))) data cur
    (enterEditMode s) s2 →
  ∃ settings,
    menuSettings s2 = Some settings ∧
    log (leaveEditMode toINode s2)
    = log s2
      ++ [HostSet (Some settings)
            ((λ v, {| nodes := toINode (nodes v); other := other v |}) <$> data);
          Emit "leave-edit-mode"].
Proof.
  intros Hr Hf Hs2. destruct (allocSettings data (heap s)) as [l h] eqn:Hal.
  destruct (fetch_direct s data cur s2 l h) as (Hf2 & Hm & Hh & _); try done.
  apply allocSettings_spec in Hal as (Hsnap & Hnd & _).
  exists l. split; [done|]. rewrite log_leaveEditMode by done.
  unfold leaveEffects. rewrite Hm, Hh. simpl.
  by rewrite snapshot_convertMenus_NoDup, Hsnap.
Qed.

(** X8.  What the user changes through a panel is what the host gets:
    the preview and the toolbar hold references to the menu objects of
    the stored settings, so after a fetch, overwriting the menu object
    listed at position [i] of the stored object's [menus] array and
    leaving edit mode sends the retrieved value with the menu at [i]
    replaced, [toINode] applied to the [nodes] of every menu. *)
Theorem edits_reach_the_host s data cur s2 settings obj i menu x :
  reachable toINode s → isInEditMode s = false →
  answered (length (promises s)) (S (length (promises s))) data cur
    (enterEditMode s) s2 →
  menuSettings s2 = Some settings →
  settingsObjs (heap s2) !! settings = Some obj →
  menus obj !! i = Some menu →
  let s3 := exec toINode (UserEdits (EditMenu menu x)) s2 in
  log (leaveEditMode toINode s3)
  = log s2
    ++ [HostSet (Some settings)
          ((λ v, {| nodes := toINode (nodes v); other := other v |})
             <$> <[i:=x]> data);
        Emit "leave-edit-mode"].
Proof.
  intros Hr Hf Hs2 Hm Hobj Hi s3.
  destruct (allocSettings data (heap s)) as [l h] eqn:Hal.
  destruct (fetch_direct s data cur s2 l h) as (Hf2 & Hm' & Hh & _); try done.
  assert (settings = l) as -> by congruence.
  apply allocSettings_spec in Hal as (_ & Hnd & Hall & _).
  rewrite Hh in Hobj. rewrite <- (readMenus_obj _ _ _ Hobj) in Hi.
  assert (Hf3 : isInEditMode s3 = true) by done.
  rewrite log_leaveEditMode by done. unfold leaveEffects.
  change (menuSettings s3) with (menuSettings s2).
  change (log s3) with (log s2).
  change (heap s3) with (applyEdit (EditMenu menu x) (heap s2)).
  rewrite Hm', Hh.
  set (h' := applyEdit (EditMenu menu x) h).
  assert (Hread : readMenus h' l = readMenus h l) by done.
  rewrite snapshot_convertMenus_NoDup by by rewrite Hread.
  unfold snapshot. rewrite Hread.
  rewrite (omap_lookup_Forall2 _ _ (<[i:=x]> data)); [done|].
  by apply Forall2_alter_insert.
Qed.

(** X12.  After a fetch, ['select-menu'] with index [i] hands the preview
    the menu object that holds the [i]-th retrieved menu (counting from
    0), and [undefined] exactly when the retrieved settings have no menu
    at [i] (a negative index or one past the end); nothing else
    changes. *)
Theorem select_menu_after_fetch s data cur s2 i :
  reachable toINode s → isInEditMode s = false →
  answered (length (promises s)) (S (length (promises s))) data cur
    (enterEditMode s) s2 →
  ∃ picked,
    step toINode (ToolbarEmits (TbSelectMenu i)) s2
    = Some (perform (PreviewSetMenu picked) s2) ∧
    (∀ v, (0 ≤ i)%Z → data !! Z.to_nat i = Some v →
          ∃ m, picked = Some m ∧ menuObjs (heap s2) !! m = Some v) ∧
    (picked = None ↔ (i < 0 ∨ Z.of_nat (length data) ≤ i)%Z).
Proof.
  intros Hr Hf Hs2. destruct (allocSettings data (heap s)) as [l h] eqn:Hal.
  destruct (fetch_direct s data cur s2 l h) as (_ & Hm & Hh & _); try done.
  apply allocSettings_spec in Hal as (_ & _ & Hall & _).
  exists (index (readMenus h l) i). simpl. rewrite Hm, Hh.
  split; [done|].
  pose proof (Forall2_length _ _ _ Hall) as Hlen.
  split.
  - intros v Hi Hv. rewrite index_nonneg by done.
    destruct (Forall2_lookup_r _ _ _ _ _ Hall Hv) as (m & Hmi & Hmv).
    by exists m.
  - destruct (decide (0 ≤ i)%Z) as [Hi|Hi].
    + rewrite index_nonneg by done. rewrite lookup_ge_None. lia.
    + rewrite index_neg by lia. split; [intros _; lia|done].
Qed.

(** X16.  [leaveEditMode()] converts the menu objects in place: with
    settings stored, in edit mode, every menu object ends up with
    [toINode] applied to its [nodes] as often as the stored object's
    [menus] array lists it and with its other fields unchanged: not at
    all when it is not listed, once when it is listed once.  The objects
    converted are those to which the preview and the toolbar still hold
    references.  Every [menus] array is left as it was, and outside edit
    mode, or with nothing stored, the heap is not touched. *)
Theorem leaveEditMode_converts_in_place s :
  let h := heap s in
  let h' := heap (leaveEditMode toINode s) in
  settingsObjs h' = settingsObjs h ∧
  (isInEditMode s = false ∨ menuSettings s = None → h' = h) ∧
  (∀ settings obj,
     isInEditMode s = true → menuSettings s = Some settings →
     settingsObjs h !! settings = Some obj →
     (∀ menu,
        menuObjs h' !! menu
        = (λ v, {| nodes := Nat.iter (length (filter (λ x, x = menu) (menus obj)))
                              toINode (nodes v);
                   other := other v |}) <$> menuObjs h !! menu) ∧
     (∀ menu, menu ∉ menus obj → menuObjs h' !! menu = menuObjs h !! menu) ∧
     (∀ menu, length (filter (λ x, x = menu) (menus obj)) = 1 →
        menuObjs h' !! menu
        = (λ v, {| nodes := toINode (nodes v); other := other v |})
            <$> menuObjs h !! menu)).
Proof.
  intros h h'. split; [|split].
  - unfold h', h, leaveEditMode. destruct (isInEditMode s); simpl; [|done].
    destruct (menuSettings s); simpl; [|done].
    apply settingsObjs_foldl_convertAt.
  - intros [Hf|Hm]; unfold h', h.
    + by rewrite leaveEditMode_noop.
    + unfold leaveEditMode. destruct (isInEditMode s); simpl; [|done].
      by rewrite Hm.
  - intros settings obj Hf Hm Hobj.
    assert (Hgen : ∀ menu,
      menuObjs h' !! menu
      = (λ v, {| nodes := Nat.iter (length (filter (λ x, x = menu) (menus obj)))
                            toINode (nodes v);
                 other := other v |}) <$> menuObjs h !! menu).
    { intros menu. unfold h'. rewrite heap_leaveEditMode, Hm by done.
      unfold convertMenus. fold h. rewrite (readMenus_obj _ _ _ Hobj).
      rewrite menuObjs_foldl_convertAt. unfold timesListed.
      destruct (menuObjs h !! menu) as [v|]; [|done]. simpl.
      by rewrite iter_convertMenu. }
    split; [done|]. split.
    + intros menu Hn. rewrite Hgen.
      pose proof (timesListed_absent menu _ Hn) as H0. unfold timesListed in H0.
      rewrite H0. destruct (menuObjs h !! menu) as [[]|]; done.
    + intros menu H1. by rewrite Hgen, H1.
Qed.


(** * A fetch that fails, at any time *)

Lemma pending_exec o s p c :
  promises s !! p = Some (c, Pending) → noReplyTo p o →
  promises (exec toINode o s) !! p = Some (c, Pending).
Proof.
  intros Hp Ho.
  assert (Henter : promises (enterEditMode s) !! p = Some (c, Pending)).
  { rewrite promises_enterEditMode. destruct (isInEditMode s); [done|].
    by apply lookup_app_l_Some. }
  destruct o as [| | | |ev|q r|ed]; unfold exec; simpl; try done.
  - unfold hide. by rewrite promises_leaveEditMode.
  - by rewrite promises_leaveEditMode.
  - destruct ev; simpl; try done.
    + by rewrite promises_leaveEditMode.
    + by destruct (menuSettings s).
  - simpl in Ho. rewrite promises_hostReply. by rewrite promises_settle_ne.
Qed.

Lemma pending_run ops s p c :
  promises s !! p = Some (c, Pending) → Forall (noReplyTo p) ops →
  promises (run toINode ops s) !! p = Some (c, Pending).
Proof.
  revert s. induction ops as [|o ops IH]; intros s Hp Ho; simpl; [done|].
  apply Forall_cons in Ho as [Ho Hops]. apply IH; [|done].
  by apply pending_exec.
Qed.

(** [Promise.all] with a rejected promise is rejected, whatever the state
    of the other promise. *)
Lemma joinStatus_rejected (ps : list (HostCall * Outcome)) j :
  (∃ c, ps !! j.1 = Some (c, Rejected)) ∨ (∃ c, ps !! j.2 = Some (c, Rejected)) →
  joinStatus ps j = Failed.
Proof.
  unfold joinStatus. intros [[c ->]|[c ->]]; [done|].
  by destruct (ps !! j.1) as [[c' []]|].
Qed.

(** The only continuation that can wait for one of the two promises of a
    fetch is the one registered with it. *)
Lemma join_of_promise s a q j :
  joinsApart s → Nat.even a = true → q = a ∨ q = S a →
  j ∈ joins s → j.1 = q ∨ j.2 = q → j = (a, S a).
Proof.
  intros [_ Hall] Ha Hq Hj Hjq. rewrite Forall_forall in Hall.
  destruct (Hall _ Hj) as [Hj2 Hje]. destruct j as [j1 j2]. simpl in *.
  apply Nat.even_spec in Ha as [ka Hka]. apply Nat.even_spec in Hje as [kj Hkj].
  f_equal; lia.
Qed.

Lemma absent_exec o s a b :
  a < length (promises s) → (a, b) ∉ joins s →
  a < length (promises (exec toINode o s)) ∧ (a, b) ∉ joins (exec toINode o s).
Proof.
  intros Ha Hab. rewrite length_promises_exec. split; [lia|].
  pose proof (coordination_exec o s) as H. destruct (negb _ && _).
  - destruct H as [_ ->]. rewrite elem_of_app, list_elem_of_singleton.
    intros [?|[= -> _]]; [done|lia].
  - destruct H as [_ ->]. destruct o; try done.
    by intros [_ ?]%list_elem_of_filter.
Qed.

Lemma absent_run ops s a b :
  a < length (promises s) → (a, b) ∉ joins s → (a, b) ∉ joins (run toINode ops s).
Proof.
  revert s. induction ops as [|o ops IH]; intros s Ha Hab; simpl; [done|].
  destruct (absent_exec o s a b Ha Hab) as [Ha' Hab']. by apply IH.
Qed.

Lemma length_promises_run ops s :
  length (promises s) ≤ length (promises (run toINode ops s)).
Proof.
  revert s. induction ops as [|o ops IH]; intros s; simpl; [done|].
  etrans; [|apply IH]. rewrite length_promises_exec. lia.
Qed.

(** X11.  There is no rejection handler.  When the host fails either of
    the two calls of a fetch, at any time before that call was answered
    (straight away, after other inputs, or after the other call was
    already answered), the failing reply changes nothing but to drop the
    continuation: nothing is stored, the preview and the toolbar are not
    called, the editor stays in the mode it is in.  From then on no
    answer to either call has any effect, whatever happened in
    between. *)
Theorem failed_fetch s p :
  reachable toINode s → isInEditMode s = false →
  let pGet := length (promises s) in
  let pCur := S pGet in
  let s1 := enterEditMode s in
  p = pGet ∨ p = pCur →
  ∀ before, Forall (noReplyTo p) before →
    let sa := run toINode before s1 in
    let sE := hostReply p ReplyError sa in
    log sE = log sa ∧
    menuSettings sE = menuSettings sa ∧
    heap sE = heap sa ∧
    container sE = container sa ∧
    ((pGet, pCur) ∉ joins sE) ∧
    ∀ after q r, q = pGet ∨ q = pCur →
      let sL := run toINode after sE in
      log (hostReply q r sL) = log sL ∧
      menuSettings (hostReply q r sL) = menuSettings sL ∧
      container (hostReply q r sL) = container sL.
Proof.
  intros Hr Hf pGet pCur s1 Hp before Hbefore sa sE.
  assert (Hr1 : reachable toINode s1)
    by apply (reachable_exec _ CallEnterEditMode _ Hr).
  assert (Hra : reachable toINode sa) by by apply reachable_run.
  assert (HrE : reachable toINode sE)
    by apply (reachable_exec _ (HostReplies p ReplyError) _ Hra).
  assert (Heven : Nat.even pGet = true).
  { unfold pGet. rewrite (reachable_promises_per_enter s Hr).
    apply Nat.even_spec. by eexists. }
  assert (Hpend1 : ∃ c, promises s1 !! p = Some (c, Pending)).
  { destruct (awaits_enter_new s Hf) as (_ & H1 & H2).
    destruct Hp as [-> | ->]; eauto. }
  destruct Hpend1 as [c Hpend1].
  assert (Hpend : promises sa !! p = Some (c, Pending)) by by apply pending_run.
  assert (Hlt : p < length (promises sa)) by by apply lookup_lt_Some in Hpend.
  assert (Hset : settle p ReplyError sa = setOutcome p c Rejected sa).
  { unfold settle. rewrite Hpend. by destruct c. }
  assert (Hrej : promises (settle p ReplyError sa) !! p = Some (c, Rejected)).
  { rewrite Hset. simpl. by rewrite list_lookup_insert_eq. }
  pose proof (reachable_joinsWait _ Hra) as Hw.
  assert (Hnone : Forall (λ j, ∀ l n,
            joinStatus (promises (settle p ReplyError sa)) j ≠ Ready l n) (joins sa)).
  { unfold joinsWait in Hw. rewrite Forall_forall in Hw.
    apply Forall_forall. intros j Hj l n.
    destruct (decide (j.1 = p ∨ j.2 = p)) as [Hjp|Hjp].
    - rewrite joinStatus_rejected; [done|].
      destruct Hjp as [-> | ->]; eauto.
    - apply isWaiting_not_ready. destruct (Hw _ Hj) as (_ & _ & <-).
      apply isWaiting_ext; rewrite promises_settle_ne; tauto. }
  assert (HsE : sE = setJoins
            (filter (λ j, isWaiting (promises (settle p ReplyError sa)) j = true)
                    (joins sa))
            (settle p ReplyError sa)) by by apply hostReply_none_ready.
  assert (Habs : (pGet, pCur) ∉ joins sE).
  { rewrite HsE. simpl. intros [Hwait _]%list_elem_of_filter.
    unfold isWaiting in Hwait. rewrite joinStatus_rejected in Hwait; [done|].
    simpl. destruct Hp as [-> | ->]; eauto. }
  split; [rewrite HsE; simpl; apply log_settle|].
  split; [rewrite HsE; simpl; apply menuSettings_settle|].
  split; [rewrite HsE, Hset; done|].
  split; [rewrite HsE; simpl; apply container_settle|].
  split; [done|].
  intros after q r Hq sL.
  assert (HrL : reachable toINode sL) by by apply reachable_run.
  assert (HabsL : (pGet, pCur) ∉ joins sL).
  { apply absent_run; [|done].
    assert (pGet < length (promises s1)); [|rewrite HsE; simpl].
    - unfold s1. rewrite promises_enterEditMode, Hf, length_app. simpl.
      fold pGet. lia.
    - rewrite length_promises_settle.
      pose proof (length_promises_run before s1). fold sa in H0. lia. }
  rewrite hostReply_unawaited.
  - by rewrite log_settle, menuSettings_settle, container_settle.
  - by apply reachable_joinsWait.
  - apply Forall_forall. intros j Hj.
    destruct (decide (j.1 = q ∨ j.2 = q)) as [Hjq|Hjq]; [|tauto].
    exfalso. apply HabsL.
    assert (Hjeq : j = (pGet, S pGet)).
    { apply (join_of_promise sL pGet q j); try done.
      by apply reachable_joinsApart. }
    by rewrite Hjeq in Hj.
Qed.


End EditorFacts.

(** * The properties on a concrete editor *)
Module SampleFacts.
Import Sample.

Lemma reachable_editing : reachable stripNode editing.
Proof. apply reachable_run, reachable_construct. Qed.

Lemma reachable_lateReply : reachable stripNode lateReply.
Proof. apply reachable_run, reachable_construct. Qed.

(** C5 at the editing editor. *)
Lemma visibility_toggle_editing :
  "visible" ≠ "edit-mode" ∧
  DOMTokenList.contains (classes (hide stripNode editing)) "visible"
  = DOMTokenList.contains
      (DOMTokenList.remove (classes editing) "visible") "visible".
Proof.
  split; [discriminate|].
  destruct (visibility_toggle stripNode editing) as (_ & _ & _ & H & _).
  apply H. discriminate.
Defined.


(** C7 at the editing editor. *)
Lemma guards_and_events_editing :
  isInEditMode editing = true ∧ enterEditMode editing = editing.
Proof.
  split; [reflexivity|].
  destruct (guards_and_events stripNode editing) as (H & _).
  apply H. reflexivity.
Defined.

(** C8 (amended) at the editing editor. *)
Lemma hide_leaves_edit_mode_editing :
  isInEditMode editing = true ∧ menuSettings (hide stripNode editing) = None.
Proof.
  split; [reflexivity|].
  destruct (hide_leaves_edit_mode stripNode editing) as (_ & _ & H & _).
  apply H. reflexivity.
Defined.

(** C9 at the editing editor. *)
Lemma set_once_never_null_editing :
  reachable stripNode editing ∧
  countIn isHostSet (log editing) ≤ emitted "leave-edit-mode" editing.
Proof.
  split; [apply reachable_editing|].
  destruct (set_once_never_null stripNode editing reachable_editing)
    as (_ & _ & H & _).
  exact H.
Defined.

Example editing_log :
  log editing
  = [SidebarSetVisibility false; HostGet 0; HostGetCurrentMenu 1;
     Emit "enter-edit-mode"; PreviewSetMenu (Some 1%positive);
     ToolbarSetMenus (MenusOf 3%positive) 0].
Proof. vm_compute. reflexivity. Qed.

Example hide_editing_log :
  log (hide stripNode editing)
  = log editing
    ++ [HostSet (Some 3%positive) [mkMenu (1, false) (); mkMenu (2, false) ()];
        Emit "leave-edit-mode"].
Proof. vm_compute. reflexivity. Qed.

Example lateReply_holds_settings :
  isInEditMode lateReply = false ∧ menuSettings lateReply = Some 3%positive ∧
  log (hide stripNode lateReply) = log lateReply.
Proof. vm_compute. repeat split. Qed.

Example select_menu_throws_without_settings :
  step stripNode (ToolbarEmits (TbSelectMenu 0)) fresh = None.
Proof. vm_compute. reflexivity. Qed.

(** C4 as stated fails: the containers appended to an empty container
    are not four. *)
Lemma constructor_appends_not_four : ¬ appendsPanels 4 bare fresh.
Proof.
  intros (ps & Hlen & H). apply (f_equal length) in H.
  simpl in H. rewrite length_fmap in H. lia.
Qed.

(** C8 as stated fails: when the host answers after edit mode was left,
    the editor holds settings outside edit mode, and [hide()] does not
    send them. *)
Lemma hide_keeps_late_settings :
  reachable stripNode lateReply ∧ ¬ hideFlushes stripNode lateReply.
Proof.
  split; [apply reachable_lateReply|].
  intros (_ & H & _). destruct (H 3%positive eq_refl) as [payload Hin].
  vm_compute in Hin. apply list_elem_of_In in Hin. simpl in Hin.
  repeat (destruct Hin as [Hin|Hin]; [discriminate|]). exact Hin.
Qed.

End SampleFacts.

(** * The further properties on concrete editors *)
Module Sample2Facts.
Import Sample Sample2.

Lemma reachable_shown : reachable stripNode shown.
Proof. apply (reachable_exec _ CallShow), reachable_construct. Qed.

Lemma reachable_saved : reachable stripNode saved.
Proof.
  apply (reachable_exec _ CallLeaveEditMode), reachable_run, reachable_construct.
Qed.

Lemma answered_editing : answered 0 1 twoMenus 0 (enterEditMode shown) editing.
Proof. by left. Qed.

(** X1 at the editing editor. *)
Lemma preview_and_properties_together_editing :
  reachable stripNode editing ∧
  countIn isPreviewHide (log editing) = countIn isPropertiesHide (log editing).
Proof.
  pose proof (reachable_run stripNode
                [CallShow; CallEnterEditMode;
                 HostReplies 0 (ReplySettings twoMenus);
                 HostReplies 1 (ReplyNumber 0)]
                fresh (reachable_construct stripNode bare [])) as Hr.
  split; [exact Hr|].
  destruct (preview_and_properties_together stripNode editing) as [_ H].
  apply (H Hr).
Defined.

(** X2 at the editing editor. *)
Lemma sidebar_only_hidden_editing :
  reachable stripNode editing ∧
  countIn (isSidebarCall true) (log editing) = 0.
Proof.
  pose proof (reachable_run stripNode
                [CallShow; CallEnterEditMode;
                 HostReplies 0 (ReplySettings twoMenus);
                 HostReplies 1 (ReplyNumber 0)]
                fresh (reachable_construct stripNode bare [])) as Hr.
  split; [exact Hr|].
  apply (sidebar_only_hidden stripNode editing Hr).
Defined.

Lemma answered_lateReply :
  answered 0 1 twoMenus 0 (leaveEditMode stripNode (enterEditMode fresh)) lateReply.
Proof. by left. Qed.

(** X9 at the fresh editor. *)
Lemma leave_before_reply_fresh :
  reachable stripNode fresh ∧ isInEditMode fresh = false ∧
  menuSettings fresh = None ∧
  answered 0 1 twoMenus 0 (leaveEditMode stripNode (enterEditMode fresh)) lateReply ∧
  isInEditMode lateReply = false.
Proof.
  split; [apply reachable_construct|]. split; [reflexivity|].
  split; [reflexivity|]. split; [apply answered_lateReply|].
  destruct (leave_before_reply stripNode fresh twoMenus 0 lateReply
              (reachable_construct stripNode bare []) eq_refl eq_refl
              answered_lateReply) as (_ & H & _).
  exact H.
Defined.

(** X10 at the fresh editor. *)
Lemma enter_then_leave_at_once_fresh :
  isInEditMode fresh = false ∧
  menuSettings (leaveEditMode stripNode (enterEditMode fresh)) = None.
Proof.
  split; [reflexivity|].
  destruct (enter_then_leave_at_once stripNode fresh eq_refl) as (_ & H & _).
  exact H.
Defined.

(** X13 at the fresh editor. *)
Lemma select_menu_needs_settings_fresh :
  menuSettings fresh = None ∧
  exec stripNode (ToolbarEmits (TbSelectMenu 0)) fresh = fresh.
Proof.
  split; [reflexivity|].
  destruct (select_menu_needs_settings stripNode fresh 0 bare []) as (_ & H & _).
  apply H. reflexivity.
Defined.

(** X14 at the saved editor. *)
Lemma sets_send_fetched_objects_saved :
  reachable stripNode saved ∧
  HostSet (Some 3%positive) (convertMenu stripNode <$> twoMenus) ∈ log saved ∧
  ∃ settings p,
    Some 3%positive = Some settings ∧
    promises saved !! p = Some (CallGet, FulfilledSettings settings) ∧
    HostGet p ∈ log saved.
Proof.
  assert (Hin : HostSet (Some 3%positive) (convertMenu stripNode <$> twoMenus)
                ∈ log saved).
  { apply list_elem_of_In. vm_compute. tauto. }
  split; [apply reachable_saved|]. split; [exact Hin|].
  apply (sets_send_fetched_objects stripNode saved reachable_saved _ _ Hin).
Defined.

(** X15 at the pre-marked container. *)
Lemma premarked_container_sample :
  DOMTokenList.contains (classList premarked) "edit-mode" = true ∧
  enterEditMode (@construct SNode unit premarked [])
  = @construct SNode unit premarked [].
Proof.
  split; [reflexivity|].
  destruct (@premarked_container SNode unit stripNode premarked []) as [_ H].
  apply H. reflexivity.
Defined.

(** X17 at the editing editor. *)
Lemma stored_settings_are_live_editing :
  reachable stripNode editing ∧ menuSettings editing = Some 3%positive ∧
  ∃ obj, settingsObjs (heap editing) !! 3%positive = Some obj ∧
         readMenus (heap editing) 3%positive = menus obj.
Proof.
  pose proof (reachable_run stripNode
                [CallShow; CallEnterEditMode;
                 HostReplies 0 (ReplySettings twoMenus);
                 HostReplies 1 (ReplyNumber 0)]
                fresh (reachable_construct stripNode bare [])) as Hr.
  assert (Hm : menuSettings editing = Some 3%positive) by (vm_compute; reflexivity).
  split; [exact Hr|]. split; [exact Hm|].
  apply (stored_settings_are_live stripNode editing 3%positive Hr Hm).
Defined.

End Sample2Facts.

(** * The round trip and its failures on concrete editors *)
Module Sample3Facts.
Import Sample Sample2 Sample3.

Lemma reachable_shown' : reachable stripNode shown.
Proof. apply (reachable_exec _ CallShow), reachable_construct. Qed.

Lemma reachable_editing' : reachable stripNode editing.
Proof. apply reachable_run, reachable_construct. Qed.

Lemma reachable_entered : reachable stripNode entered.
Proof. apply reachable_run, reachable_construct. Qed.

Lemma answered_editing' : answered 0 1 twoMenus 0 (enterEditMode shown) editing.
Proof. by left. Qed.

(** C1 at the fresh editor: [getCurrentMenu()] is answered with 1, then
    [get()] with two menus; the preview is handed the object that holds
    the second of them. *)
Lemma enterEditMode_fetches_fresh :
  reachable stripNode fresh ∧ isInEditMode fresh = false ∧
  Forall (quiet (length (promises fresh)) (S (length (promises fresh))))
    ([] : list (@Op SNode unit)) ∧
  (0 ≤ 1)%Z ∧ twoMenus !! Z.to_nat 1 = Some (mkMenu (2, true) ()) ∧
  let pGet := length (promises fresh) in
  let sc := run stripNode []
              (hostReply (S pGet) (ReplyNumber 1)
                 (run stripNode [] (enterEditMode fresh))) in
  let s2 := hostReply pGet (ReplySettings twoMenus) sc in
  ∃ settings m,
    log s2 = log sc ++ [PreviewSetMenu (Some m);
                        ToolbarSetMenus (MenusOf settings) 1] ∧
    menuObjs (heap s2) !! m = Some (mkMenu (2, true) ()).
Proof.
  split; [apply reachable_construct|]. split; [reflexivity|].
  split; [constructor|]. split; [lia|]. split; [reflexivity|].
  intros pGet sc s2.
  destruct (enterEditMode_fetches stripNode fresh
              (reachable_construct stripNode bare []) eq_refl)
    as (_ & _ & _ & _ & HB).
  destruct (HB [] [] twoMenus 1%Z (Forall_nil_2 _) (Forall_nil_2 _))
    as (settings & obj & picked & _ & _ & _ & _ & _ & _ & Hlog & _ & _ & Hv & _).
  destruct (Hv (mkMenu (2, true) ()) ltac:(lia) eq_refl) as (m & -> & Hm).
  exists settings, m. split; [exact Hlog|exact Hm].
Defined.

(** C2 at the editing editor. *)
Lemma leaveEditMode_sends_back_editing :
  reachable stripNode editing ∧ isInEditMode editing = true ∧
  menuSettings editing = Some 3%positive ∧
  ∃ obj,
    settingsObjs (heap editing) !! 3%positive = Some obj ∧
    (NoDup (menus obj) →
       snapshot (heap (leaveEditMode stripNode editing)) 3%positive
       = omap (λ m, (λ v, {| nodes := stripNode (nodes v); other := other v |})
                    <$> menuObjs (heap editing) !! m) (menus obj)).
Proof.
  assert (Hm : menuSettings editing = Some 3%positive) by (vm_compute; reflexivity).
  split; [apply reachable_editing'|]. split; [reflexivity|]. split; [exact Hm|].
  destruct (leaveEditMode_sends_back stripNode editing 3%positive
              reachable_editing' eq_refl Hm)
    as (_ & _ & _ & _ & _ & _ & _ & obj & Hobj & _ & Hnd).
  exists obj. split; [exact Hobj|exact Hnd].
Defined.

(** C3 as stated fails: in edit mode before the host has answered and in
    edit mode with settings stored, the flag and the whole container are
    the same, but ['select-menu'] throws in the first state and not in
    the second. *)
Lemma flag_does_not_decide :
  reachable stripNode entered ∧ reachable stripNode editing ∧
  container entered = container editing ∧
  ¬ flagDecides stripNode entered editing.
Proof.
  split; [apply reachable_entered|]. split; [apply reachable_editing'|].
  split; [vm_compute; reflexivity|].
  intros H. destruct (H eq_refl (ToolbarEmits (TbSelectMenu 0))) as [[H1 _] _].
  specialize (H1 eq_refl). vm_compute in H1. discriminate H1.
Qed.

(** C3 (amended) at two editors in edit mode with nothing stored, one
    shown and one hidden: leaving does the same in both. *)
Lemma edit_mode_flag_entered :
  isInEditMode entered = isInEditMode (enterEditMode fresh) ∧
  stored entered = stored (enterEditMode fresh) ∧
  (∀ p r, (CallLeaveEditMode : @Op SNode unit) ≠ HostReplies p r) ∧
  kindOf <$> newEffects stripNode CallLeaveEditMode entered
  = kindOf <$> newEffects stripNode CallLeaveEditMode (enterEditMode fresh).
Proof.
  assert (Hno : ∀ p r, (CallLeaveEditMode : @Op SNode unit) ≠ HostReplies p r)
    by discriminate.
  split; [reflexivity|]. split; [reflexivity|]. split; [exact Hno|].
  destruct (edit_mode_flag stripNode entered) as (_ & _ & _ & _ & _ & _ & H & _).
  destruct (H (enterEditMode fresh) CallLeaveEditMode eq_refl eq_refl Hno)
    as (_ & Hk & _).
  exact Hk.
Defined.

(** X7 at the shown editor. *)
Lemma round_trip_without_edits_shown :
  reachable stripNode shown ∧ isInEditMode shown = false ∧
  answered 0 1 twoMenus 0 (enterEditMode shown) editing ∧
  ∃ settings,
    menuSettings editing = Some settings ∧
    log (leaveEditMode stripNode editing)
    = log editing
      ++ [HostSet (Some settings) [mkMenu (1, false) (); mkMenu (2, false) ()];
          Emit "leave-edit-mode"].
Proof.
  split; [apply reachable_shown'|]. split; [reflexivity|].
  split; [apply answered_editing'|].
  apply (round_trip_without_edits stripNode shown twoMenus 0 editing
           reachable_shown' eq_refl answered_editing').
Defined.

(** X8 at the shown editor: the first menu is overwritten. *)
Lemma edits_reach_the_host_shown :
  reachable stripNode shown ∧ isInEditMode shown = false ∧
  answered 0 1 twoMenus 0 (enterEditMode shown) editing ∧
  menuSettings editing = Some 3%positive ∧
  settingsObjs (heap editing) !! 3%positive
  = Some {| menus := [1%positive; 2%positive] |} ∧
  [1%positive; 2%positive] !! 0 = Some 1%positive ∧
  log (leaveEditMode stripNode
         (exec stripNode (UserEdits (EditMenu 1%positive (mkMenu (9, true) ())))
            editing))
  = log editing
    ++ [HostSet (Some 3%positive) [mkMenu (9, false) (); mkMenu (2, false) ()];
        Emit "leave-edit-mode"].
Proof.
  split; [apply reachable_shown'|]. split; [reflexivity|].
  split; [apply answered_editing'|].
  assert (Hm : menuSettings editing = Some 3%positive) by (vm_compute; reflexivity).
  assert (Hobj : settingsObjs (heap editing) !! 3%positive
                 = Some {| menus := [1%positive; 2%positive] |})
    by (vm_compute; reflexivity).
  split; [exact Hm|]. split; [exact Hobj|]. split; [reflexivity|].
  apply (edits_reach_the_host stripNode shown twoMenus 0 editing 3%positive
           {| menus := [1%positive; 2%positive] |} 0 1%positive
           (mkMenu (9, true) ())
           reachable_shown' eq_refl answered_editing' Hm Hobj eq_refl).
Defined.

(** X11 at the shown editor: [get()] is answered, then
    [getCurrentMenu()] fails. *)
Lemma failed_fetch_shown :
  reachable stripNode shown ∧ isInEditMode shown = false ∧ (1 = 0 ∨ 1 = 1) ∧
  Forall (noReplyTo 1)
    [(HostReplies 0 (ReplySettings twoMenus) : @Op SNode unit)] ∧
  let sa := run stripNode [HostReplies 0 (ReplySettings twoMenus)]
              (enterEditMode shown) in
  log (hostReply 1 ReplyError sa) = log sa ∧
  menuSettings (hostReply 1 ReplyError sa) = menuSettings sa.
Proof.
  assert (Hq : Forall (noReplyTo 1)
                 [(HostReplies 0 (ReplySettings twoMenus) : @Op SNode unit)]).
  { constructor; [simpl; lia|constructor]. }
  split; [apply reachable_shown'|]. split; [reflexivity|].
  split; [by right|]. split; [exact Hq|].
  intros sa.
  destruct (failed_fetch stripNode shown 1 reachable_shown' eq_refl
              (or_intror eq_refl) _ Hq) as (Hl & Hm & _).
  split; [exact Hl|exact Hm].
Defined.

(** X12 at the shown editor: the second menu is selected. *)
Lemma select_menu_after_fetch_shown :
  reachable stripNode shown ∧ isInEditMode shown = false ∧
  answered 0 1 twoMenus 0 (enterEditMode shown) editing ∧
  (0 ≤ 1)%Z ∧ twoMenus !! Z.to_nat 1 = Some (mkMenu (2, true) ()) ∧
  ∃ m,
    step stripNode (ToolbarEmits (TbSelectMenu 1)) editing
    = Some (perform (PreviewSetMenu (Some m)) editing) ∧
    menuObjs (heap editing) !! m = Some (mkMenu (2, true) ()).
Proof.
  split; [apply reachable_shown'|]. split; [reflexivity|].
  split; [apply answered_editing'|]. split; [lia|]. split; [reflexivity|].
  destruct (select_menu_after_fetch stripNode shown twoMenus 0 editing 1
              reachable_shown' eq_refl answered_editing')
    as (picked & Hstep & Hv & _).
  destruct (Hv (mkMenu (2, true) ()) ltac:(lia) eq_refl) as (m & -> & Hm).
  by exists m.
Defined.

(** X16 at the editing editor: the first menu object is converted. *)
Lemma leaveEditMode_converts_in_place_editing :
  isInEditMode editing = true ∧ menuSettings editing = Some 3%positive ∧
  settingsObjs (heap editing) !! 3%positive
  = Some {| menus := [1%positive; 2%positive] |} ∧
  length (filter (λ x, x = 1%positive) [1%positive; 2%positive]) = 1 ∧
  menuObjs (heap (leaveEditMode stripNode editing)) !! 1%positive
  = (λ v, {| nodes := stripNode (nodes v); other := other v |})
      <$> menuObjs (heap editing) !! 1%positive.
Proof.
  assert (Hm : menuSettings editing = Some 3%positive) by (vm_compute; reflexivity).
  assert (Hobj : settingsObjs (heap editing) !! 3%positive
                 = Some {| menus := [1%positive; 2%positive] |})
    by (vm_compute; reflexivity).
  split; [reflexivity|]. split; [exact Hm|]. split; [exact Hobj|].
  split; [reflexivity|].
  destruct (leaveEditMode_converts_in_place stripNode editing) as (_ & _ & H).
  destruct (H 3%positive _ eq_refl Hm Hobj) as (_ & _ & H1).
  apply (H1 1%positive). reflexivity.
Defined.

End Sample3Facts.
